(** * WindowDamageHandler (xpra/x11/gtk_x11/window_damage.py)

    A shallow embedding of the per-window damage / capture handler of the
    xpra X11 server.  The handler's attributes are a record, the class
    attribute [XShmEnabled] is process-wide state threaded next to it, and
    every request sent through the X11 bindings is appended to a trace and
    answered by an X server oracle ([XServer]).  A request may raise an
    [XError]; the contexts [xsync] and [xlog] are modelled below. *)

From Stdlib Require Import ZArith Ascii String List Bool Lia.
Import ListNotations.
Open Scope Z_scope.

(** ** Objects handed out by the X11 bindings *)

(** [XShmWrapper]: [get_size()] returns the size recorded at creation. *)
Record ShmWrapper := mkShm {
  shm_id : Z;
  shm_width : Z;
  shm_height : Z
}.

(** [PixmapWrapper] of [get_xwindow_pixmap_wrapper]: [get_pixmap()],
    [get_width()] and [get_height()] return the recorded attributes. *)
Record PixmapWrapper := mkPixmap {
  pm_id : Z;
  pm_pixmap : Z;
  pm_width : Z;
  pm_height : Z
}.

(** Which binding produced an image. *)
Inductive image_source := FromXShm | FromPixmap.

(** [XImageWrapper]: the binding that produced an image and its rectangle. *)
Record XImageWrapper := mkImage {
  img_source : image_source;
  img_x : Z;
  img_y : Z;
  img_width : Z;
  img_height : Z
}.

(** ** Observable effects *)

(** Requests sent to the X server through the bindings. *)
Inductive xcall :=
| XGeometryWithBorder (xid : Z)
| XDamageCreate (xid : Z)
| XDamageDestroy (dh : Z)
| XDamageSubtract (dh : Z)
| XHasXShm
| XGetGeometry (xid : Z)
| XGetXShmWrapper (xid : Z)
| XShmSetup (sid : Z)
| XShmGetImage (sid pixmap x y w h : Z)
| XShmDiscard (sid : Z)
| XShmCleanup (sid : Z)
| XGetPixmapWrapper (xid : Z)
| XPixmapGetImage (pid x y w h : Z)
| XPixmapCleanup (pid : Z).

(** Calls to the event dispatcher of gdk_bindings. *)
Inductive receiver_call :=
| AddEventReceiver (window : option Z)
| RemoveEventReceiver (window : Z).

Inductive level := Debug | Warn.

Inductive event :=
| EvX (c : xcall)
| EvReceiver (r : receiver_call)
| EvLog (l : level) (msg : string).

Inductive exn :=
| XError (msg : string)
| Unmanageable (msg : string)
| AttributeError
| NotImplementedError.

(** ** The X server oracle

    The answers the X server gives during one operation; [xs_fail c] is
    the error message of the [XError] raised by request [c], if any, and
    [xs_shm_image c] the rectangle of the image the XShm wrapper returns
    for the [XShmGetImage] request [c] (None for no image). *)
Record XServer := mkXServer {
  xs_fail : xcall -> option string;
  xs_geometry_with_border : option (Z * Z * Z * Z * Z);
  xs_damage_create : Z;
  xs_has_XShm : bool;
  xs_window_geometry : Z * Z * Z * Z;
  xs_XShmWrapper : option ShmWrapper;
  xs_shm_setup : bool * bool * bool;
  xs_shm_image : xcall -> option (Z * Z * Z * Z);
  xs_pixmap_wrapper : option PixmapWrapper;
  xs_pixmap_image : bool
}.

(** ** Handler state *)

(** The attributes of a [WindowDamageHandler] instance; the GDK
    [client_window] is represented by its X window id. *)
Record WindowDamageHandler := mkHandler {
  client_window : option Z;
  xid : Z;
  use_xshm : bool;
  damage_handle : option Z;
  xshm_handle : option ShmWrapper;
  contents_handle : option PixmapWrapper;
  border_width : Z
}.

(** [WindowDamageHandler.__init__(client_window, use_xshm)]. *)
Definition new_handler (window : Z) (use_xshm : bool) : WindowDamageHandler :=
  mkHandler (Some window) window use_xshm None None None 0.

Definition set_client_window (s : WindowDamageHandler) v :=
  mkHandler v s.(xid) s.(use_xshm) s.(damage_handle) s.(xshm_handle)
    s.(contents_handle) s.(border_width).
Definition set_use_xshm (s : WindowDamageHandler) v :=
  mkHandler s.(client_window) s.(xid) v s.(damage_handle) s.(xshm_handle)
    s.(contents_handle) s.(border_width).
Definition set_damage_handle (s : WindowDamageHandler) v :=
  mkHandler s.(client_window) s.(xid) s.(use_xshm) v s.(xshm_handle)
    s.(contents_handle) s.(border_width).
Definition set_xshm_handle (s : WindowDamageHandler) v :=
  mkHandler s.(client_window) s.(xid) s.(use_xshm) s.(damage_handle) v
    s.(contents_handle) s.(border_width).
Definition set_contents_handle (s : WindowDamageHandler) v :=
  mkHandler s.(client_window) s.(xid) s.(use_xshm) s.(damage_handle)
    s.(xshm_handle) v s.(border_width).
Definition set_border_width (s : WindowDamageHandler) v :=
  mkHandler s.(client_window) s.(xid) s.(use_xshm) s.(damage_handle)
    s.(xshm_handle) s.(contents_handle) v.

(** Python truthiness of the damage handle ([if dh:]). *)
Definition truthy_handle (dh : option Z) : bool :=
  match dh with Some d => negb (d =? 0) | None => false end.

(** Python truthiness of [self.client_window]. *)
Definition has_window (s : WindowDamageHandler) : bool :=
  match s.(client_window) with Some _ => true | None => false end.

(** The state one method call sees: the class attribute
    [WindowDamageHandler.XShmEnabled], [self], and the trace. *)
Record PState := mkPState {
  XShmEnabled : bool;
  self : WindowDamageHandler;
  trace : list event
}.

(** ** A state and exception monad *)

Inductive res (A : Type) := Ok (a : A) | Raise (e : exn).
Arguments Ok {A} a.
Arguments Raise {A} e.

Definition M (A : Type) := PState -> PState * res A.

Definition ret {A} (a : A) : M A := fun st => (st, Ok a).

Definition bind {A B} (m : M A) (k : A -> M B) : M B :=
  fun st =>
    match m st with
    | (st', Ok a) => k a st'
    | (st', Raise e) => (st', Raise e)
    end.

Notation "x <- m ;; k" := (bind m (fun x => k))
  (at level 61, m at next level, right associativity).
Notation "m ;; k" := (bind m (fun _ => k)) (at level 61, right associativity).

Definition raise {A} (e : exn) : M A := fun st => (st, Raise e).

Definition emit (ev : event) : M unit :=
  fun st => (mkPState st.(XShmEnabled) st.(self) (st.(trace) ++ [ev]), Ok tt).

Definition get_self : M WindowDamageHandler := fun st => (st, Ok st.(self)).

Definition modify_self (f : WindowDamageHandler -> WindowDamageHandler) : M unit :=
  fun st => (mkPState st.(XShmEnabled) (f st.(self)) st.(trace), Ok tt).

Definition get_XShmEnabled : M bool := fun st => (st, Ok st.(XShmEnabled)).

Definition set_XShmEnabled (b : bool) : M unit :=
  fun st => (mkPState b st.(self) st.(trace), Ok tt).

(** [try: m except XError as e: h(e.msg)]. *)
Definition try_xerror {A} (m : M A) (h : string -> M A) : M A :=
  fun st =>
    match m st with
    | (st', Raise (XError msg)) => h msg st'
    | r => r
    end.

Definition log (l : level) (msg : string) : M unit := emit (EvLog l msg).

Definition receiver (r : receiver_call) : M unit := emit (EvReceiver r).

(** [msg.startswith("BadMatch") or msg.startswith("BadWindow")]. *)
Definition window_gone (msg : string) : bool :=
  String.prefix "BadMatch" msg || String.prefix "BadWindow" msg.

(** ** The methods of [WindowDamageHandler] *)

Section Methods.

Variable xs : XServer.

(** A request through the bindings: recorded, then possibly failing. *)
Definition xreq (c : xcall) : M unit :=
  emit (EvX c) ;;
  match xs.(xs_fail) c with
  | Some msg => raise (XError msg)
  | None => ret tt
  end.

(** Modelled from the spec: the [xlog] context of xpra.gtk_common.error
    (not in this source tree) absorbs the X errors of its body and logs
    them (section 4.1: "All display-server calls here absorb a
    recoverable window vanished error class (logged at debug)"). *)
Definition xlog (m : M unit) : M unit :=
  try_xerror m (fun msg => log Debug msg).

(** [xsync] makes the errors of its body synchronous; in this model every
    request reports its error where it is made, so [xsync] is the body. *)
Definition xsync {A} (m : M A) : M A := m.

(** [invalidate_pixmap()] *)
Definition invalidate_pixmap : M unit :=
  s <- get_self ;;
  log Debug "invalidating named pixmap" ;;
  match s.(contents_handle) with
  | Some ch =>
      modify_self (fun s => set_contents_handle s None) ;;
      xlog (xreq (XPixmapCleanup ch.(pm_id)))
  | None => ret tt
  end.

(** [create_damage_handle()] *)
Definition create_damage_handle : M unit :=
  s <- get_self ;;
  xreq (XDamageCreate s.(xid)) ;;
  modify_self (fun s => set_damage_handle s (Some xs.(xs_damage_create))) ;;
  log Debug "damage handle".

(** [setup()] *)
Definition setup : M unit :=
  invalidate_pixmap ;;
  s <- get_self ;;
  xreq (XGeometryWithBorder s.(xid)) ;;
  match xs.(xs_geometry_with_border) with
  | None => raise (Unmanageable "window disappeared already")
  | Some (_, _, _, _, bw) =>
      modify_self (fun s => set_border_width s bw) ;;
      create_damage_handle ;;
      s <- get_self ;;
      receiver (AddEventReceiver s.(client_window))
  end.

(** [destroy_damage_handle()] *)
Definition destroy_damage_handle : M unit :=
  log Debug "close_damage_handle()" ;;
  invalidate_pixmap ;;
  s <- get_self ;;
  (if truthy_handle s.(damage_handle) then
     match s.(damage_handle) with
     | Some dh =>
         modify_self (fun s => set_damage_handle s None) ;;
         xlog (xreq (XDamageDestroy dh))
     | None => ret tt
     end
   else ret tt) ;;
  s <- get_self ;;
  (match s.(xshm_handle) with
   | Some sh =>
       modify_self (fun s => set_xshm_handle s None) ;;
       xlog (xreq (XShmCleanup sh.(shm_id)))
   | None => ret tt
   end) ;;
  invalidate_pixmap.

(** [do_destroy(win)] *)
Definition do_destroy (win : Z) : M unit :=
  receiver (RemoveEventReceiver win) ;;
  destroy_damage_handle.

(** [destroy()] *)
Definition destroy : M unit :=
  s <- get_self ;;
  match s.(client_window) with
  | None => log Warn "damage window handler already cleaned up!"
  | Some win =>
      modify_self (fun s => set_client_window s None) ;;
      do_destroy win
  end.

(** [acknowledge_changes()] *)
Definition acknowledge_changes : M unit :=
  s <- get_self ;;
  let sh := s.(xshm_handle) in
  let dh := s.(damage_handle) in
  log Debug "acknowledge_changes()" ;;
  (match sh with
   | Some h => xreq (XShmDiscard h.(shm_id))
   | None => ret tt
   end) ;;
  if truthy_handle dh && has_window s then
    match dh with
    | Some d => xlog (xreq (XDamageSubtract d)) ;; invalidate_pixmap
    | None => ret tt
    end
  else ret tt.

(** [has_xshm()]: [self._use_xshm and WindowDamageHandler.XShmEnabled
    and XImage.has_XShm()], evaluated left to right. *)
Definition has_xshm : M bool :=
  s <- get_self ;;
  if s.(use_xshm) then
    enabled <- get_XShmEnabled ;;
    if enabled then
      xreq XHasXShm ;; ret xs.(xs_has_XShm)
    else ret false
  else ret false.

(** The block [if self._xshm_handle is None:] of [get_xshm_handle()]:
    allocate a new wrapper and probe it. *)
Definition xshm_negotiate : M unit :=
  s <- get_self ;;
  xreq (XGetXShmWrapper s.(xid)) ;;
  modify_self (fun s => set_xshm_handle s xs.(xs_XShmWrapper)) ;;
  match xs.(xs_XShmWrapper) with
  | None => ret tt
  | Some h =>
      xreq (XShmSetup h.(shm_id)) ;;
      let '(init_ok, retry_window, xshm_failed) := xs.(xs_shm_setup) in
      (if negb init_ok then modify_self (fun s => set_xshm_handle s None)
       else ret tt) ;;
      (if negb retry_window then modify_self (fun s => set_use_xshm s false)
       else ret tt) ;;
      (if xshm_failed then
         log Warn "Warning: disabling XShm support following irrecoverable error" ;;
         set_XShmEnabled false
       else ret tt)
  end.

(** The size check of [get_xshm_handle()] on a cached wrapper. *)
Definition xshm_check_size : M unit :=
  s <- get_self ;;
  match s.(xshm_handle) with
  | None => ret tt
  | Some h =>
      let sw := h.(shm_width) in
      let sh := h.(shm_height) in
      match s.(client_window) with
      | None => raise AttributeError
      | Some w =>
          xreq (XGetGeometry w) ;;
          let '(_, _, ww, wh) := xs.(xs_window_geometry) in
          if negb (sw =? ww) || negb (sh =? wh) then
            xreq (XShmCleanup h.(shm_id)) ;;
            modify_self (fun s => set_xshm_handle s None)
          else ret tt
      end
  end.

(** [get_xshm_handle()] *)
Definition get_xshm_handle : M (option ShmWrapper) :=
  ok <- has_xshm ;;
  if negb ok then ret None
  else
    xshm_check_size ;;
    s <- get_self ;;
    match s.(xshm_handle) with
    | Some h => ret (Some h)
    | None =>
        xshm_negotiate ;;
        s <- get_self ;;
        ret s.(xshm_handle)
    end.

(** [get_contents_handle()], with [_set_pixmap()] inlined. *)
Definition get_contents_handle : M (option PixmapWrapper) :=
  s <- get_self ;;
  match s.(client_window) with
  | None => ret None
  | Some _ =>
      match s.(contents_handle) with
      | Some ch => ret (Some ch)
      | None =>
          log Debug "refreshing named pixmap" ;;
          xlog (xreq (XGetPixmapWrapper s.(xid)) ;;
                modify_self (fun s => set_contents_handle s xs.(xs_pixmap_wrapper))) ;;
          s <- get_self ;;
          ret s.(contents_handle)
      end
  end.

(** The fast path of [get_image()]: the body of its first [try]. *)
Definition xshm_attempt (handle : PixmapWrapper) (x y width height : Z)
  : M (option XImageWrapper) :=
  xsync (
    shm <- get_xshm_handle ;;
    match shm with
    | None => ret None
    | Some sh =>
        let c := XShmGetImage sh.(shm_id) handle.(pm_pixmap) x y width height in
        xreq c ;;
        ret (match xs.(xs_shm_image) c with
             | Some (ix, iy, iw, ih) => Some (mkImage FromXShm ix iy iw ih)
             | None => None
             end)
    end).

(** The handler of the first [except XError]. *)
Definition xshm_error (msg : string) : M (option XImageWrapper) :=
  (if window_gone msg
   then log Debug "get_image BadMatch ignored (window already gone?)"
   else log Warn msg) ;;
  ret None.

(** The slow path of [get_image()]: its second [try] and [except]. *)
Definition pixmap_read (handle : PixmapWrapper) (x y width height : Z)
  : M (option XImageWrapper) :=
  try_xerror
    (let w := Z.min handle.(pm_width) width in
     let h := Z.min handle.(pm_height) height in
     (if negb (w =? width) || negb (h =? height)
      then log Debug "get_image clamped to pixmap dimensions"
      else ret tt) ;;
     xsync (
       xreq (XPixmapGetImage handle.(pm_id) x y w h) ;;
       ret (if xs.(xs_pixmap_image)
            then Some (mkImage FromPixmap x y w h) else None)))
    (fun msg =>
       (if String.prefix "BadMatch" msg
        then log Debug "get_image BadMatch ignored (window already gone?)"
        else log Warn "Warning: cannot capture image of geometry") ;;
       ret None).

(** [get_image(x, y, width, height)] *)
Definition get_image (x y width height : Z) : M (option XImageWrapper) :=
  handle <- get_contents_handle ;;
  match handle with
  | None => log Debug "get_image(..) pixmap is None" ;; ret None
  | Some h =>
      shm_image <- try_xerror (xshm_attempt h x y width height) xshm_error ;;
      match shm_image with
      | Some img => ret (Some img)
      | None => pixmap_read h x y width height
      end
  end.

(** [do_xpra_damage_event(event)] *)
Definition do_xpra_damage_event : M unit := raise NotImplementedError.

(** [do_xpra_reparent_event(event)] *)
Definition do_xpra_reparent_event : M unit := invalidate_pixmap.

(** [xpra_unmap_event(event)] *)
Definition xpra_unmap_event : M unit := invalidate_pixmap.

(** [do_xpra_configure_event(event)] *)
Definition do_xpra_configure_event (event_border_width : Z) : M unit :=
  modify_self (fun s => set_border_width s event_border_width) ;;
  invalidate_pixmap.

End Methods.

(** ** Calls made on a handler, and a process holding several handlers *)

Inductive Op :=
| OpSetup
| OpDestroy
| OpAcknowledgeChanges
| OpInvalidatePixmap
| OpHasXShm
| OpGetXShmHandle
| OpGetContentsHandle
| OpGetImage (x y width height : Z)
| OpDamageEvent
| OpReparentEvent
| OpUnmapEvent
| OpConfigureEvent (event_border_width : Z).

(** One method call, its return value dropped. *)
Definition run_op (xs : XServer) (o : Op) : M unit :=
  match o with
  | OpSetup => setup xs
  | OpDestroy => destroy xs
  | OpAcknowledgeChanges => acknowledge_changes xs
  | OpInvalidatePixmap => invalidate_pixmap xs
  | OpHasXShm => _ <- has_xshm xs ;; ret tt
  | OpGetXShmHandle => _ <- get_xshm_handle xs ;; ret tt
  | OpGetContentsHandle => _ <- get_contents_handle xs ;; ret tt
  | OpGetImage x y w h => _ <- get_image xs x y w h ;; ret tt
  | OpDamageEvent => do_xpra_damage_event
  | OpReparentEvent => do_xpra_reparent_event xs
  | OpUnmapEvent => xpra_unmap_event xs
  | OpConfigureEvent bw => do_xpra_configure_event xs bw
  end.

(** A sequence of calls on one handler, each against its own X server
    answers; an exception ends a call, not the sequence. *)
Fixpoint run_ops (calls : list (XServer * Op)) : M unit :=
  match calls with
  | [] => ret tt
  | (xs, o) :: rest =>
      fun st => run_ops rest (fst (run_op xs o st))
  end.

(** The process: the class attribute and every live handler. *)
Record Process := mkProcess {
  p_XShmEnabled : bool;
  p_handlers : list WindowDamageHandler;
  p_trace : list event
}.

(** [XShmEnabled = USE_XSHM], where the module constant is
    [USE_XSHM = envbool("XPRA_XSHM", True)]. *)
Definition initial_process (USE_XSHM : bool) : Process :=
  mkProcess USE_XSHM [] [].

Inductive Action :=
| NewHandler (window : Z) (use_xshm : bool)
| Call (i : nat) (xs : XServer) (o : Op).

Fixpoint replace_nth {A} (n : nat) (a : A) (l : list A) : list A :=
  match n, l with
  | O, _ :: t => a :: t
  | S n', h :: t => h :: replace_nth n' a t
  | _, [] => []
  end.

Definition process_step (p : Process) (a : Action) : Process :=
  match a with
  | NewHandler w u =>
      mkProcess p.(p_XShmEnabled) (p.(p_handlers) ++ [new_handler w u]) p.(p_trace)
  | Call i xs o =>
      match nth_error p.(p_handlers) i with
      | None => p
      | Some s =>
          let st := fst (run_op xs o (mkPState p.(p_XShmEnabled) s p.(p_trace))) in
          mkProcess st.(XShmEnabled) (replace_nth i st.(self) p.(p_handlers)) st.(trace)
      end
  end.

Definition process_run (p : Process) (actions : list Action) : Process :=
  fold_left process_step actions p.

(** [has_xshm()] called on handler [s] of the process. *)
Definition process_has_xshm (xs : XServer) (p : Process) (s : WindowDamageHandler) : res bool :=
  snd (has_xshm xs (mkPState p.(p_XShmEnabled) s p.(p_trace))).

(** ** Concrete scenarios *)

Definition no_fail : xcall -> option string := fun _ => None.

(** The XShm wrapper of a [ww]x[wh] window returns the part of the
    requested rectangle inside the window. *)
Definition shm_reads (ww wh : Z) : xcall -> option (Z * Z * Z * Z) :=
  fun c => match c with
           | XShmGetImage _ _ x y w h => Some (x, y, Z.min w ww, Z.min h wh)
           | _ => None
           end.

(** An X server where the window is 800x600 with border 2, everything
    succeeds and the fast path is present. *)
Definition xs_800 : XServer :=
  mkXServer no_fail (Some (0, 0, 800, 600, 2)) 77 true (0, 0, 800, 600)
    (Some (mkShm 5 800 600)) (true, true, false) (shm_reads 800 600)
    (Some (mkPixmap 9 90 800 600)) true.

Definition st0 (h : WindowDamageHandler) : PState := mkPState true h [].

Example setup_800 :
  snd (setup xs_800 (st0 (new_handler 42 true))) = Ok tt /\
  damage_handle (self (fst (setup xs_800 (st0 (new_handler 42 true))))) = Some 77 /\
  border_width (self (fst (setup xs_800 (st0 (new_handler 42 true))))) = 2.
Proof. vm_compute. auto. Qed.

Example get_image_fast_800 :
  snd (get_image xs_800 0 0 800 600
         (fst (setup xs_800 (st0 (new_handler 42 true)))))
  = Ok (Some (mkImage FromXShm 0 0 800 600)).
Proof. vm_compute. reflexivity. Qed.

(** * Content type guessing (xpra/server/window/content_guesser.py)

    Python strings are lists of characters; a [dict] is an association
    list kept in insertion order, as Python's dicts iterate; the file
    system, the regular expression engine and the window's property values
    are the oracles of the sections below. *)

Module ContentGuesser.

Definition pystr := list ascii.

(** A Python string literal. *)
Definition S (s : string) : pystr := list_ascii_of_string s.

Definition ascii_eqb (a b : ascii) : bool := if ascii_dec a b then true else false.

Definition pystr_eqb (a b : pystr) : bool :=
  if list_eq_dec ascii_dec a b then true else false.

Definition is_emptyb (s : pystr) : bool :=
  match s with [] => true | _ => false end.

(** Python truthiness of a string that may be None. *)
Definition truthy_str (s : option pystr) : bool :=
  match s with Some t => negb (is_emptyb t) | None => false end.

(** [c in chars] *)
Definition in_chars (chars : pystr) (c : ascii) : bool := existsb (ascii_eqb c) chars.

(** [str.isspace()] on one ASCII character. *)
Definition is_space (c : ascii) : bool :=
  let n := nat_of_ascii c in
  (Nat.leb 9 n && Nat.leb n 13) || (Nat.leb 28 n && Nat.leb n 32).

Fixpoint lstrip_by (p : ascii -> bool) (s : pystr) : pystr :=
  match s with
  | c :: t => if p c then lstrip_by p t else s
  | [] => []
  end.

Definition rstrip_by (p : ascii -> bool) (s : pystr) : pystr :=
  rev (lstrip_by p (rev s)).

Definition strip_by (p : ascii -> bool) (s : pystr) : pystr :=
  rstrip_by p (lstrip_by p s).

(** [s.strip()] *)
Definition py_strip (s : pystr) : pystr := strip_by is_space s.

(** [s.rstrip("\n\r")] *)
Definition rstrip_nl (s : pystr) : pystr := rstrip_by (in_chars ["010"; "013"]%char) s.

(** [s.strip("\t ")] *)
Definition strip_tab_space (s : pystr) : pystr := strip_by (in_chars ["009"; " "]%char) s.

Fixpoint startswith (p s : pystr) : bool :=
  match p, s with
  | [], _ => true
  | c :: p', d :: s' => ascii_eqb c d && startswith p' s'
  | _ :: _, [] => false
  end.

Definition endswith (suffix s : pystr) : bool := startswith (rev suffix) (rev s).

(** [s.find(sub) >= 0] *)
Fixpoint containsb (sub s : pystr) : bool :=
  startswith sub s || match s with [] => false | _ :: t => containsb sub t end.

(** [s.split(sep, 1)] when it has two parts. *)
Fixpoint split_first (sep : ascii) (s : pystr) : option (pystr * pystr) :=
  match s with
  | [] => None
  | c :: t =>
      if ascii_eqb c sep then Some ([], t)
      else match split_first sep t with
           | Some (a, b) => Some (c :: a, b)
           | None => None
           end
  end.

(** [s.rsplit(sep, 1)] when it has two parts. *)
Definition rsplit_last (sep : ascii) (s : pystr) : option (pystr * pystr) :=
  match split_first sep (rev s) with
  | Some (a, b) => Some (rev b, rev a)
  | None => None
  end.

(** [s.split(sep)[0]] *)
Definition first_field (sep : ascii) (s : pystr) : pystr :=
  match split_first sep s with Some (a, _) => a | None => s end.

(** [s.split(sep)] *)
Fixpoint split_all (sep : ascii) (s : pystr) : list pystr :=
  match s with
  | [] => [[]]
  | c :: t =>
      if ascii_eqb c sep then [] :: split_all sep t
      else match split_all sep t with
           | a :: rest => (c :: a) :: rest
           | [] => [[c]]
           end
  end.

(** [s.lower()] on ASCII. *)
Definition lower_char (c : ascii) : ascii :=
  let n := nat_of_ascii c in
  if Nat.leb 65 n && Nat.leb n 90 then ascii_of_nat (n + 32) else c.

Definition lower (s : pystr) : pystr := map lower_char s.

(** [os.path.basename(p)] (posixpath: the text after the last '/'). *)
Definition basename (p : pystr) : pystr :=
  match rsplit_last "/"%char p with Some (_, b) => b | None => p end.

(** [os.path.join(d, f)] (posixpath, two arguments). *)
Definition path_join (d f : pystr) : pystr :=
  if startswith (S "/") f then f
  else if is_emptyb d || endswith (S "/") d then d ++ f
  else d ++ "/"%char :: f.

(** [sorted()] on strings: code point order. *)
Fixpoint str_ltb (a b : pystr) : bool :=
  match a, b with
  | [], [] => false
  | [], _ :: _ => true
  | _ :: _, [] => false
  | x :: a', y :: b' =>
      if Nat.ltb (nat_of_ascii x) (nat_of_ascii y) then true
      else if Nat.ltb (nat_of_ascii y) (nat_of_ascii x) then false
      else str_ltb a' b'
  end.

Fixpoint insert_sorted (x : pystr) (l : list pystr) : list pystr :=
  match l with
  | [] => [x]
  | y :: t => if str_ltb y x then y :: insert_sorted x t else x :: l
  end.

Definition sorted (l : list pystr) : list pystr := fold_right insert_sorted [] l.

(** ** Dictionaries with string keys *)

Fixpoint dict_get {V} (k : pystr) (d : list (pystr * V)) : option V :=
  match d with
  | [] => None
  | (k', v) :: t => if pystr_eqb k k' then Some v else dict_get k t
  end.

(** [d[k] = v]: an existing key keeps its place, a new one goes last. *)
Fixpoint dict_set {V} (k : pystr) (v : V) (d : list (pystr * V)) : list (pystr * V) :=
  match d with
  | [] => [(k, v)]
  | (k', v') :: t => if pystr_eqb k k' then (k', v) :: t else (k', v') :: dict_set k v t
  end.

(** [d.update(e)] *)
Definition dict_update {V} (d e : list (pystr * V)) : list (pystr * V) :=
  fold_left (fun acc kv => dict_set (fst kv) (snd kv) acc) e d.

(** ** Exceptions and the environment *)

Inductive pyexn := OSError | ReadError | TypeError | UnboundLocalError.

Inductive pyres (A : Type) := POk (a : A) | PRaise (e : pyexn).
Arguments POk {A} a.
Arguments PRaise {A} e.

(** The file system: [fs_isdir d] is [os.path.exists(d) and
    os.path.isdir(d)]; [fs_listdir d] is None when [os.listdir(d)]
    raises; [fs_read f] gives the lines a [for line in f] loop over
    [open(f, "r")] sees, and whether opening or reading raised after
    them. *)
Record FS := mkFS {
  fs_isdir : pystr -> bool;
  fs_listdir : pystr -> option (list pystr);
  fs_isfile : pystr -> bool;
  fs_read : pystr -> list pystr * bool
}.

(** Module constants and platform answers. *)
Record Env := mkEnv {
  system_conf_dirs : list pystr;
  user_conf_dirs : list pystr;
  POSIX : bool;
  OSX : bool;
  uid : Z;
  DEFAULT_CONTENT_TYPE : pystr;
  CONTENT_TYPE_DEFS : pystr
}.

(** [not POSIX or getuid()>0] *)
Definition reads_user_dirs (env : Env) : bool := negb env.(POSIX) || (0 <? env.(uid)).

(** ** Content type definitions *)

(** Per property: the compiled pattern (keyed by its source, as
    [re.compile] caches patterns) to [(regex, content_type)]. *)
Definition rules := list (pystr * (pystr * pystr)).
Definition defs := list (pystr * rules).

Section Defs.

(** Whether [re.compile(regex)] succeeds. *)
Variable regex_ok : pystr -> bool.

(** [content_type_defs.setdefault(prop_name, {})[c] = (regex, content_type)] *)
Definition defs_add (prop_name regex content_type : pystr) (d : defs) : defs :=
  let inner := match dict_get prop_name d with Some r => r | None => [] end in
  dict_set prop_name (dict_set regex (regex, content_type) inner) d.

(** [process_content_type_entry(entry)]: its result and the global
    [content_type_defs] afterwards. *)
Definition process_content_type_entry (d : defs) (entry0 : pystr) : bool * defs :=
  let entry := rstrip_nl entry0 in
  if startswith (S "#") entry || is_emptyb (py_strip entry) then (true, d)
  else
    match rsplit_last "="%char entry with
    | None => (false, d)
    | Some (m, content_type0) =>
        match split_first ":"%char m with
        | None => (false, d)
        | Some (prop_name, regex) =>
            let content_type := py_strip (first_field ":"%char content_type0) in
            if regex_ok regex then (true, defs_add prop_name regex content_type d)
            else (false, d)
        end
    end.

Definition process_entries (d : defs) (entries : list pystr) : defs :=
  fold_left (fun acc e => snd (process_content_type_entry acc e)) entries d.

(** [load_content_type_file(ct_file)]: the definitions afterwards and
    whether an exception left the [with] block. *)
Definition load_content_type_file (fs : FS) (ct_file : pystr) (d : defs) : defs * bool :=
  let '(lines, raised) := fs.(fs_read) ct_file in
  (process_entries d lines, raised).

(** [load_content_type_dir(d)]; the [except] around each file drops the
    exception. *)
Definition load_content_type_dir (fs : FS) (dir : pystr) (d : defs) : pyres defs :=
  if fs.(fs_isdir) dir then
    match fs.(fs_listdir) dir with
    | None => PRaise OSError
    | Some names =>
        POk (fold_left
               (fun acc f =>
                  if endswith (S ".conf") f then
                    let ct_file := path_join dir f in
                    if fs.(fs_isfile) ct_file then fst (load_content_type_file fs ct_file acc)
                    else acc
                  else acc)
               (sorted names) d)
    end
  else POk d.

(** The loop [for d in dirs: load_content_type_dir(os.path.join(d,
    "content-type"))]: the definitions reached, and the exception that
    ended the loop. *)
Fixpoint load_content_type_dirs (fs : FS) (dirs : list pystr) (d : defs)
  : defs * option pyexn :=
  match dirs with
  | [] => (d, None)
  | dir :: rest =>
      match load_content_type_dir fs (path_join dir (S "content-type")) d with
      | POk d' => load_content_type_dirs fs rest d'
      | PRaise e => (d, Some e)
      end
  end.

(** [load_content_type_defs()]: the global [content_type_defs]
    afterwards and the result.  The global is set to [{}] first and
    filled in place. *)
Definition load_content_type_defs (env : Env) (fs : FS) (g : option defs)
  : option defs * pyres defs :=
  match g with
  | Some d => (g, POk d)
  | None =>
      match load_content_type_dirs fs env.(system_conf_dirs) [] with
      | (d1, Some e) => (Some d1, PRaise e)
      | (d1, None) =>
          match (if reads_user_dirs env
                 then load_content_type_dirs fs env.(user_conf_dirs) d1
                 else (d1, None)) with
          | (d2, Some e) => (Some d2, PRaise e)
          | (d2, None) =>
              let d3 := process_entries d2 (split_all ","%char env.(CONTENT_TYPE_DEFS)) in
              (Some d3, POk d3)
          end
      end
  end.

(** [get_content_type_properties()] *)
Definition get_content_type_properties (env : Env) (fs : FS) (g : option defs)
  : option defs * pyres (list pystr) :=
  match load_content_type_defs env fs g with
  | (g', POk d) => (g', POk (map fst d))
  | (g', PRaise e) => (g', PRaise e)
  end.

End Defs.

(** ** Content categories *)

Definition categories := list (pystr * pystr).

(** One line of the loop of [load_content_categories_file]. *)
Definition categories_line (d : categories) (line0 : pystr) : categories :=
  let line := rstrip_nl line0 in
  if startswith (S "#") line || is_emptyb (py_strip line) then d
  else
    match rsplit_last ":"%char line with
    | None => d
    | Some (category, content_type) =>
        dict_set (lower (strip_tab_space category)) (strip_tab_space content_type) d
    end.

(** [load_content_categories_file(cc_file)] *)
Definition load_content_categories_file (fs : FS) (cc_file : pystr) : pyres categories :=
  let '(lines, raised) := fs.(fs_read) cc_file in
  if raised then PRaise ReadError else POk (fold_left categories_line lines []).

(** [load_content_categories_dir(d)] *)
Definition load_content_categories_dir (fs : FS) (dir : pystr) : pyres categories :=
  if fs.(fs_isdir) dir then
    match fs.(fs_listdir) dir with
    | None => PRaise OSError
    | Some names =>
        POk (fold_left
               (fun acc f =>
                  if endswith (S ".conf") f then
                    let cc_file := path_join dir f in
                    if fs.(fs_isfile) cc_file then
                      match load_content_categories_file fs cc_file with
                      | POk d => dict_update acc d
                      | PRaise _ => acc
                      end
                    else acc
                  else acc)
               (sorted names) [])
    end
  else POk [].

(** The system loop of [load_categories_to_type()]: the mapping and the
    local [v] (None while unbound). *)
Fixpoint load_system_categories (fs : FS) (dirs : list pystr) (ctt : categories)
  (v : option categories) : pyres (categories * option categories) :=
  match dirs with
  | [] => POk (ctt, v)
  | d :: rest =>
      match load_content_categories_dir fs (path_join d (S "content-categories")) with
      | PRaise e => PRaise e
      | POk v' => load_system_categories fs rest (dict_update ctt v') (Some v')
      end
  end.

(** The user loop: the result of each load is dropped and [v] is applied. *)
Fixpoint load_user_categories (fs : FS) (dirs : list pystr) (ctt : categories)
  (v : option categories) : pyres categories :=
  match dirs with
  | [] => POk ctt
  | d :: rest =>
      match load_content_categories_dir fs (path_join d (S "content-categories")) with
      | PRaise e => PRaise e
      | POk _ =>
          match v with
          | None => PRaise UnboundLocalError
          | Some v0 => load_user_categories fs rest (dict_update ctt v0) v
          end
      end
  end.

(** [load_categories_to_type()] *)
Definition load_categories_to_type (env : Env) (fs : FS) : pyres categories :=
  match load_system_categories fs env.(system_conf_dirs) [] None with
  | PRaise e => PRaise e
  | POk (ctt, v) =>
      if reads_user_dirs env then load_user_categories fs env.(user_conf_dirs) ctt v
      else POk ctt
  end.

(** ** Commands of the menu *)

(** The properties of a menu entry that [load_command_to_type] reads. *)
Record DesktopEntry := mkEntry {
  TryExec : option pystr;
  Exec : option pystr;
  Categories : option (list pystr)
}.

(** [get_menu_data()]: per category, its ["Entries"] by name. *)
Definition menu := list (pystr * list (pystr * DesktopEntry)).

(** [props.get("TryExec") or props.get("Exec")] *)
Definition entry_command (e : DesktopEntry) : option pystr :=
  match e.(TryExec) with
  | Some s => if is_emptyb s then e.(Exec) else Some s
  | None => e.(Exec)
  end.

(** The fuzzy loop: the first category name found in [c.lower()]. *)
Fixpoint fuzzy_type (lc : pystr) (ctt : categories) : option pystr :=
  match ctt with
  | [] => None
  | (category_name, ct) :: rest =>
      if containsb category_name lc then Some ct else fuzzy_type lc rest
  end.

(** [ctype] for category [c]. *)
Definition category_type (ctt : categories) (c : pystr) : option pystr :=
  let ctype := dict_get (lower c) ctt in
  if truthy_str ctype then ctype
  else match fuzzy_type (lower c) ctt with
       | Some ct => Some ct
       | None => ctype
       end.

(** The loop [for c in categories:] of one entry. *)
Fixpoint type_entry (ctt : categories) (command : pystr) (cats : list pystr)
  (m : categories) : categories :=
  match cats with
  | [] => m
  | c :: rest =>
      if truthy_str (category_type ctt c) then
        let cmd := basename (first_field " "%char command) in
        if negb (is_emptyb cmd) then
          match category_type ctt c with
          | Some ct => dict_set cmd ct m
          | None => m
          end
        else type_entry ctt command rest m
      else type_entry ctt command rest m
  end.

Definition type_menu_entry (ctt : categories) (m : categories) (e : DesktopEntry)
  : categories :=
  match entry_command e, e.(Categories) with
  | Some command, Some cats =>
      if negb (is_emptyb command) && negb (match cats with [] => true | _ => false end)
      then type_entry ctt command cats m
      else m
  | _, _ => m
  end.

Definition type_menu (ctt : categories) (xdg_menu : menu) : categories :=
  fold_left
    (fun m cat => fold_left (fun m ne => type_menu_entry ctt m (snd ne)) (snd cat) m)
    xdg_menu [].

(** [load_command_to_type()]: the global [command_to_type] afterwards
    and the result.  Its keys are the UTF-8 bytes of [cmd], which are
    the characters of [cmd] for ASCII. *)
Definition load_command_to_type (env : Env) (fs : FS) (xdg_menu : option menu)
  (g : option categories) : option categories * pyres categories :=
  match g with
  | Some m => (g, POk m)
  | None =>
      match load_categories_to_type env fs with
      | PRaise e => (Some [], PRaise e)
      | POk ctt =>
          match xdg_menu, ctt with
          | Some ((_ :: _) as mn), _ :: _ => (Some (type_menu ctt mn), POk (type_menu ctt mn))
          | _, _ => (Some [], POk [])
          end
      end
  end.

(** ** Guessing *)

(** The two globals of the module. *)
Record CGState := mkCGState {
  content_type_defs : option defs;
  command_to_type : option categories
}.

(** What Python type a property value has, as far as the code cares. *)
Inductive pykind := KStr (s : pystr) | KBytes (b : pystr) | KOther.

Section Window.

Variable regex_ok : pystr -> bool.
(** [bool(re.compile(regex).search(s))] *)
Variable search : pystr -> pystr -> bool.
(** Property values. *)
Variable V : Type.
(** [str(value)] *)
Variable py_str : V -> pystr.
(** The items of a value that is a list or a tuple. *)
Variable as_sequence : V -> option (list V).
Variable py_truthy : V -> bool.
Variable py_kind : V -> pykind.

Record Window := mkWindow {
  get_property_names : list pystr;
  get_property : pystr -> V
}.

(** [getprop(window, prop)] *)
Definition getprop (w : Window) (prop : pystr) : option V :=
  if existsb (pystr_eqb prop) w.(get_property_names) then Some (w.(get_property) prop)
  else None.

Definition values_of (v : V) : list V :=
  match as_sequence v with Some l => l | None => [v] end.

Fixpoint match_rules (s : pystr) (r : rules) : option pystr :=
  match r with
  | [] => None
  | (regex, (_, content_type)) :: rest =>
      if search regex s then Some content_type else match_rules s rest
  end.

Fixpoint match_values (values : list V) (r : rules) : option pystr :=
  match values with
  | [] => None
  | value :: rest =>
      match match_rules (py_str value) r with
      | Some ct => Some ct
      | None => match_values rest r
      end
  end.

(** The loop of [guess_content_type_from_defs(window)]. *)
Fixpoint guess_from (w : Window) (d : defs) : option pystr :=
  match d with
  | [] => None
  | (prop_name, r) :: rest =>
      if existsb (pystr_eqb prop_name) w.(get_property_names) then
        match match_values (values_of (w.(get_property) prop_name)) r with
        | Some ct => Some ct
        | None => guess_from w rest
        end
      else guess_from w rest
  end.

(** [guess_content_type_from_defs(window)] *)
Definition guess_content_type_from_defs (env : Env) (fs : FS) (st : CGState) (w : Window)
  : CGState * pyres (option pystr) :=
  match load_content_type_defs regex_ok env fs st.(content_type_defs) with
  | (g, PRaise e) => (mkCGState g st.(command_to_type), PRaise e)
  | (g, POk d) => (mkCGState g st.(command_to_type), POk (guess_from w d))
  end.

(** [guess_content_type_from_command(window)]: [os.path.basename] keeps
    the type of [command], and a str key never equals the bytes keys of
    [command_to_type]; any other type makes [basename] raise. *)
Definition guess_content_type_from_command (env : Env) (fs : FS) (xdg_menu : option menu)
  (st : CGState) (w : Window) : CGState * pyres (option pystr) :=
  if env.(POSIX) && negb env.(OSX) then
    match getprop w (S "command") with
    | Some command =>
        if py_truthy command then
          match load_command_to_type env fs xdg_menu st.(command_to_type) with
          | (g, PRaise e) => (mkCGState st.(content_type_defs) g, PRaise e)
          | (g, POk ctt) =>
              (mkCGState st.(content_type_defs) g,
               match py_kind command with
               | KBytes b => POk (dict_get (basename b) ctt)
               | KStr _ => POk None
               | KOther => PRaise TypeError
               end)
          end
        else (st, POk None)
    | None => (st, POk None)
    end
  else (st, POk None).

(** [guess_content_type(window)] *)
Definition guess_content_type (env : Env) (fs : FS) (xdg_menu : option menu)
  (st : CGState) (w : Window) : CGState * pyres pystr :=
  match guess_content_type_from_defs env fs st w with
  | (st1, PRaise e) => (st1, PRaise e)
  | (st1, POk a) =>
      if truthy_str a then (st1, POk (match a with Some s => s | None => [] end))
      else
        match guess_content_type_from_command env fs xdg_menu st1 w with
        | (st2, PRaise e) => (st2, PRaise e)
        | (st2, POk b) =>
            (st2, POk (if truthy_str b then match b with Some s => s | None => [] end
                       else env.(DEFAULT_CONTENT_TYPE)))
        end
  end.

End Window.

End ContentGuesser.

(** * Proofs *)

(** ** State properties kept by every call

    [preserves P m]: if the class attribute and [self] satisfy [P] before
    [m], they satisfy it after [m], whatever [m] returns or raises. *)
Definition preserves (P : bool -> WindowDamageHandler -> Prop) {A} (m : M A) : Prop :=
  forall st, P st.(XShmEnabled) st.(self) ->
    P (fst (m st)).(XShmEnabled) (fst (m st)).(self).

Section Preserves.

Variable P : bool -> WindowDamageHandler -> Prop.
Hypothesis P_contents : forall l s v, P l s -> P l (set_contents_handle s v).
Hypothesis P_damage : forall l s v, P l s -> P l (set_damage_handle s v).
Hypothesis P_xshm : forall l s v, P l s -> P l (set_xshm_handle s v).
Hypothesis P_use_xshm : forall l s, P l s -> P l (set_use_xshm s false).
Hypothesis P_border : forall l s v, P l s -> P l (set_border_width s v).
Hypothesis P_clear_window : forall l s, P l s -> P l (set_client_window s None).
Hypothesis P_disable : forall l s, P l s -> P false s.

Lemma preserves_ret {A} (a : A) : preserves P (ret a).
Proof. intros st H; exact H. Qed.

Lemma preserves_raise {A} e : preserves P (@raise A e).
Proof. intros st H; exact H. Qed.

Lemma preserves_emit ev : preserves P (emit ev).
Proof. intros st H; exact H. Qed.

Lemma preserves_get_self : preserves P get_self.
Proof. intros st H; exact H. Qed.

Lemma preserves_get_XShmEnabled : preserves P get_XShmEnabled.
Proof. intros st H; exact H. Qed.

Lemma preserves_bind {A B} (m : M A) (k : A -> M B) :
  preserves P m -> (forall a, preserves P (k a)) -> preserves P (bind m k).
Proof.
  intros Hm Hk st H. unfold bind.
  specialize (Hm st H). destruct (m st) as [st' [a|e]]; simpl in *; auto.
  apply Hk; exact Hm.
Qed.

Lemma preserves_try {A} (m : M A) h :
  preserves P m -> (forall msg, preserves P (h msg)) -> preserves P (try_xerror m h).
Proof.
  intros Hm Hh st H. unfold try_xerror.
  specialize (Hm st H). destruct (m st) as [st' [a|[msg| | |]]]; simpl in *; auto.
  apply Hh; exact Hm.
Qed.

Lemma preserves_modify f :
  (forall l s, P l s -> P l (f s)) -> preserves P (modify_self f).
Proof. intros Hf st H; simpl; auto. Qed.

Lemma preserves_set_XShmEnabled :
  preserves P (set_XShmEnabled false).
Proof. intros st H; simpl; eauto. Qed.

Ltac preserves_tac :=
  repeat match goal with
  | |- preserves _ (bind _ _) => apply preserves_bind; [|intro]
  | |- preserves _ (try_xerror _ _) => apply preserves_try; [|intro]
  | |- preserves _ (ret _) => apply preserves_ret
  | |- preserves _ (raise _) => apply preserves_raise
  | |- preserves _ (emit _) => apply preserves_emit
  | |- preserves _ (log _ _) => apply preserves_emit
  | |- preserves _ (receiver _) => apply preserves_emit
  | |- preserves _ get_self => apply preserves_get_self
  | |- preserves _ get_XShmEnabled => apply preserves_get_XShmEnabled
  | |- preserves _ (set_XShmEnabled false) => apply preserves_set_XShmEnabled
  | |- preserves _ (modify_self _) => apply preserves_modify; intros ? ? ?; eauto
  | |- preserves _ (xsync _) => unfold xsync
  | |- preserves _ ((fun _ => _) _) => cbv beta
  | |- context [match ?x with _ => _ end] => destruct x
  end.

Lemma xreq_preserves xs c : preserves P (xreq xs c).
Proof. unfold xreq; preserves_tac. Qed.

Lemma xlog_preserves m : preserves P m -> preserves P (xlog m).
Proof. intros Hm; unfold xlog; preserves_tac; auto. Qed.

Lemma invalidate_pixmap_preserves xs : preserves P (invalidate_pixmap xs).
Proof.
  unfold invalidate_pixmap; preserves_tac; apply xlog_preserves, xreq_preserves.
Qed.

Create HintDb wdh_preserves.
#[local] Hint Resolve xreq_preserves invalidate_pixmap_preserves : wdh_preserves.

Ltac methods_tac :=
  repeat first [ progress preserves_tac | apply xlog_preserves
               | solve [eauto with wdh_preserves] ].

Lemma setup_preserves xs : preserves P (setup xs).
Proof. unfold setup, create_damage_handle; methods_tac. Qed.

Lemma do_destroy_preserves xs win : preserves P (do_destroy xs win).
Proof. unfold do_destroy, destroy_damage_handle; methods_tac. Qed.

Lemma destroy_preserves xs : preserves P (destroy xs).
Proof. unfold destroy, do_destroy, destroy_damage_handle; methods_tac. Qed.

Lemma acknowledge_changes_preserves xs : preserves P (acknowledge_changes xs).
Proof. unfold acknowledge_changes; methods_tac. Qed.

Lemma has_xshm_preserves xs : preserves P (has_xshm xs).
Proof. unfold has_xshm; methods_tac. Qed.

Lemma get_xshm_handle_preserves xs : preserves P (get_xshm_handle xs).
Proof.
  unfold get_xshm_handle, xshm_negotiate, xshm_check_size.
  apply preserves_bind; [apply has_xshm_preserves|intro]. methods_tac.
Qed.

Lemma get_contents_handle_preserves xs : preserves P (get_contents_handle xs).
Proof. unfold get_contents_handle; methods_tac. Qed.

Lemma get_image_preserves xs x y w h : preserves P (get_image xs x y w h).
Proof.
  unfold get_image, pixmap_read, xshm_error.
  apply preserves_bind; [apply get_contents_handle_preserves|intro].
  preserves_tac; try (unfold xshm_attempt, xsync; preserves_tac;
    try apply get_xshm_handle_preserves); methods_tac.
Qed.

Lemma run_op_preserves xs o : preserves P (run_op xs o).
Proof.
  destruct o; simpl; unfold do_xpra_damage_event, do_xpra_reparent_event,
    xpra_unmap_event, do_xpra_configure_event;
    first [ apply setup_preserves | apply destroy_preserves
          | apply acknowledge_changes_preserves | apply invalidate_pixmap_preserves
          | apply preserves_raise | idtac ];
    preserves_tac;
    first [ apply has_xshm_preserves | apply get_xshm_handle_preserves
          | apply get_contents_handle_preserves | apply get_image_preserves
          | apply invalidate_pixmap_preserves | idtac ].
Qed.

Lemma run_ops_preserves calls : preserves P (run_ops calls).
Proof.
  induction calls as [|[xs o] rest IH]; simpl.
  - apply preserves_ret.
  - intros st H. apply IH. apply run_op_preserves; exact H.
Qed.

End Preserves.

(** ** The process-wide latch [XShmEnabled] *)

Definition xshm_disabled (l : bool) (_ : WindowDamageHandler) : Prop := l = false.

Lemma run_op_keeps_disabled xs o : preserves xshm_disabled (run_op xs o).
Proof. apply run_op_preserves; unfold xshm_disabled; auto. Qed.

Lemma process_step_keeps_disabled p a :
  p.(p_XShmEnabled) = false -> (process_step p a).(p_XShmEnabled) = false.
Proof.
  intros H. destruct a as [w u|i xs o]; simpl; auto.
  destruct (nth_error (p_handlers p) i) as [s|]; simpl; auto.
  apply (run_op_keeps_disabled xs o (mkPState (p_XShmEnabled p) s (p_trace p))).
  exact H.
Qed.

Lemma process_run_keeps_disabled actions : forall p,
  p.(p_XShmEnabled) = false -> (process_run p actions).(p_XShmEnabled) = false.
Proof.
  induction actions as [|a rest IH]; intros p H; simpl; auto.
  apply IH, process_step_keeps_disabled, H.
Qed.

Lemma has_xshm_disabled xs st :
  st.(XShmEnabled) = false -> has_xshm xs st = (st, Ok false).
Proof.
  intros H. unfold has_xshm, bind, get_self, get_XShmEnabled, ret; simpl.
  destruct (use_xshm (self st)); rewrite ?H; reflexivity.
Qed.

(** ** Handlers whose window reference was cleared *)

Definition window_cleared (_ : bool) (s : WindowDamageHandler) : Prop :=
  s.(client_window) = None.

Lemma run_ops_keep_cleared calls : preserves window_cleared (run_ops calls).
Proof. apply run_ops_preserves; unfold window_cleared; simpl; auto. Qed.

Lemma destroy_clears xs st : (fst (destroy xs st)).(self).(client_window) = None.
Proof.
  unfold destroy, bind, get_self; simpl.
  destruct (client_window (self st)) as [win|] eqn:E; simpl.
  - apply (do_destroy_preserves window_cleared); unfold window_cleared; simpl; auto.
  - exact E.
Qed.

Lemma get_image_cleared xs x y w h st :
  st.(self).(client_window) = None ->
  get_image xs x y w h st =
    (mkPState st.(XShmEnabled) st.(self)
       (st.(trace) ++ [EvLog Debug "get_image(..) pixmap is None"]), Ok None).
Proof.
  intros H. unfold get_image, get_contents_handle, bind, get_self; simpl.
  rewrite H; simpl. reflexivity.
Qed.

(** ** Claims *)

(** C2 (corrected).  [WindowDamageHandler.XShmEnabled] starts as the module
    constant [USE_XSHM] (the XPRA_XSHM environment setting, true unless
    disabled); no call ever turns it from false to true; and once it is
    false, [has_xshm()] returns false for every handler of the process from
    then on, whatever [use_xshm] the handler was constructed with. *)
Theorem XShmEnabled_one_way :
  (forall USE_XSHM, (initial_process USE_XSHM).(p_XShmEnabled) = USE_XSHM) /\
  (forall p a, (process_step p a).(p_XShmEnabled) = true ->
               p.(p_XShmEnabled) = true) /\
  (forall p actions, p.(p_XShmEnabled) = false ->
     (process_run p actions).(p_XShmEnabled) = false /\
     forall xs s, In s (process_run p actions).(p_handlers) ->
       process_has_xshm xs (process_run p actions) s = Ok false).
Proof.
  split; [reflexivity|split].
  - intros p a H. destruct (p_XShmEnabled p) eqn:E; [reflexivity|].
    rewrite (process_step_keeps_disabled p a E) in H. discriminate.
  - intros p actions H. pose proof (process_run_keeps_disabled actions p H) as H'.
    split; [exact H'|]. intros xs s _. unfold process_has_xshm.
    rewrite has_xshm_disabled by exact H'. reflexivity.
Qed.

(** C2: the latch does not start true when XPRA_XSHM disables it. *)
Lemma XShmEnabled_starts_true_cex :
  ~ (forall USE_XSHM, (initial_process USE_XSHM).(p_XShmEnabled) = true).
Proof. intros H. specialize (H false). discriminate. Qed.

(** C10.  After [destroy()], whatever calls follow, [get_image(x, y,
    width, height)] returns None for every rectangle, raises nothing, sends
    no request to the X server (only a debug line is logged) and changes
    no state. *)
Theorem get_image_after_destroy :
  forall xs st calls xs' x y w h,
    let st1 := fst (run_ops calls (fst (destroy xs st))) in
    get_image xs' x y w h st1 =
      (mkPState st1.(XShmEnabled) st1.(self)
         (st1.(trace) ++ [EvLog Debug "get_image(..) pixmap is None"]), Ok None).
Proof.
  intros xs st calls xs' x y w h st1. apply get_image_cleared.
  apply (run_ops_keep_cleared calls). apply destroy_clears.
Qed.

Ltac destruct_matches :=
  repeat (simpl in *; match goal with
  | |- context [match ?x with _ => _ end] => destruct x eqn:?
  end).

(** C8.  [destroy()] on a handler already destroyed (whatever calls came
    in between) raises nothing, only logs a warning, and leaves the class
    attribute and the handler unchanged. *)
Theorem destroy_twice :
  forall xs st calls xs',
    let st1 := fst (run_ops calls (fst (destroy xs st))) in
    destroy xs' st1 =
      (mkPState st1.(XShmEnabled) st1.(self)
         (st1.(trace) ++ [EvLog Warn "damage window handler already cleaned up!"]),
       Ok tt).
Proof.
  intros xs st calls xs' st1.
  assert (H : st1.(self).(client_window) = None).
  { apply (run_ops_keep_cleared calls). apply destroy_clears. }
  unfold destroy, bind, get_self; simpl. rewrite H. reflexivity.
Qed.

Lemma invalidate_pixmap_effect xs st :
  (fst (invalidate_pixmap xs st)).(XShmEnabled) = st.(XShmEnabled) /\
  (fst (invalidate_pixmap xs st)).(self) = set_contents_handle st.(self) None /\
  snd (invalidate_pixmap xs st) = Ok tt.
Proof.
  unfold invalidate_pixmap, xlog, try_xerror, xreq, log, emit, modify_self,
    bind, get_self, ret.
  destruct (contents_handle (self st)) as [ch|] eqn:E; simpl.
  - destruct (xs_fail xs (XPixmapCleanup (pm_id ch))); simpl; auto.
  - split; [reflexivity|split; [|reflexivity]].
    destruct (self st); simpl in *; subst; reflexivity.
Qed.

(** C9.  The reparent and unmap reactions clear the cached pixmap and
    change nothing else; the configure reaction records the event's border
    width and clears the cached pixmap and changes nothing else; none of
    them raises or touches [XShmEnabled].  (The unmap reaction is the
    method [xpra_unmap_event].) *)
Theorem lifecycle_reactions :
  forall xs st bw,
    ((fst (do_xpra_reparent_event xs st)).(self) = set_contents_handle st.(self) None /\
     (fst (do_xpra_reparent_event xs st)).(XShmEnabled) = st.(XShmEnabled) /\
     snd (do_xpra_reparent_event xs st) = Ok tt) /\
    ((fst (xpra_unmap_event xs st)).(self) = set_contents_handle st.(self) None /\
     (fst (xpra_unmap_event xs st)).(XShmEnabled) = st.(XShmEnabled) /\
     snd (xpra_unmap_event xs st) = Ok tt) /\
    ((fst (do_xpra_configure_event xs bw st)).(self) =
       set_contents_handle (set_border_width st.(self) bw) None /\
     (fst (do_xpra_configure_event xs bw st)).(XShmEnabled) = st.(XShmEnabled) /\
     snd (do_xpra_configure_event xs bw st) = Ok tt).
Proof.
  intros xs st bw. unfold do_xpra_reparent_event, xpra_unmap_event.
  destruct (invalidate_pixmap_effect xs st) as [H1 [H2 H3]].
  split; [auto|split; [auto|]].
  unfold do_xpra_configure_event, bind at 1, modify_self; simpl.
  destruct (invalidate_pixmap_effect xs
    (mkPState (XShmEnabled st) (set_border_width (self st) bw) (trace st)))
    as [H4 [H5 H6]].
  auto.
Qed.

Lemma invalidate_pixmap_trace xs st :
  exists d, (fst (invalidate_pixmap xs st)).(trace) = st.(trace) ++ d /\
    forall ev, In ev d ->
      (exists l m, ev = EvLog l m) \/ (exists p, ev = EvX (XPixmapCleanup p)).
Proof.
  unfold invalidate_pixmap, xlog, try_xerror, xreq, log, emit, modify_self,
    bind, get_self, ret.
  destruct (contents_handle (self st)) as [ch|]; simpl.
  - destruct (xs_fail xs (XPixmapCleanup (pm_id ch))); simpl.
    + eexists; split; [rewrite <- !app_assoc; reflexivity|].
      simpl; intros ev Hin; intuition (subst; eauto).
    + eexists; split; [rewrite <- !app_assoc; reflexivity|].
      simpl; intros ev Hin; intuition (subst; eauto).
  - eexists; split; [reflexivity|].
    simpl; intros ev Hin; intuition (subst; eauto).
Qed.

(** C7.  When the geometry query of [setup()] answers None, [setup()]
    raises [Unmanageable], the damage handle is left as it was, and no
    damage handle is requested and no event receiver is added; when it
    answers a geometry (and the damage request goes through), [setup()]
    records its border width, stores the new damage handle and adds the
    handler as an event receiver. *)
Theorem setup_spec :
  forall xs st,
    xs.(xs_fail) (XGeometryWithBorder st.(self).(xid)) = None ->
    (xs.(xs_geometry_with_border) = None ->
       snd (setup xs st) = Raise (Unmanageable "window disappeared already") /\
       (fst (setup xs st)).(self).(damage_handle) = st.(self).(damage_handle) /\
       exists delta, (fst (setup xs st)).(trace) = st.(trace) ++ delta /\
         ~ In (EvX (XDamageCreate st.(self).(xid))) delta /\
         forall w, ~ In (EvReceiver (AddEventReceiver w)) delta) /\
    (forall a b c d bw,
       xs.(xs_geometry_with_border) = Some (a, b, c, d, bw) ->
       xs.(xs_fail) (XDamageCreate st.(self).(xid)) = None ->
       snd (setup xs st) = Ok tt /\
       (fst (setup xs st)).(self).(border_width) = bw /\
       (fst (setup xs st)).(self).(damage_handle) = Some xs.(xs_damage_create) /\
       In (EvReceiver (AddEventReceiver st.(self).(client_window)))
          (fst (setup xs st)).(trace)).
Proof.
  intros xs st Hq.
  destruct (invalidate_pixmap_effect xs st) as [E1 [E2 E3]].
  destruct (invalidate_pixmap_trace xs st) as [d [Ed Hd]].
  remember (invalidate_pixmap xs st) as r eqn:Er.
  destruct r as [st1 r1]; simpl in E1, E2, E3, Ed; subst r1.
  assert (Hx : st1.(self).(xid) = st.(self).(xid)) by (rewrite E2; reflexivity).
  assert (Hw : st1.(self).(client_window) = st.(self).(client_window))
    by (rewrite E2; reflexivity).
  split.
  - intros Hg.
    assert (Hs : setup xs st =
      (mkPState (XShmEnabled st1) (self st1)
         (trace st1 ++ [EvX (XGeometryWithBorder (xid (self st)))]),
       Raise (Unmanageable "window disappeared already"))).
    { unfold setup, bind at 1. rewrite <- Er.
      unfold xreq, bind, get_self, emit, raise; simpl.
      rewrite Hx, Hq, Hg; reflexivity. }
    rewrite Hs; simpl. split; [reflexivity|split].
    + rewrite E2; reflexivity.
    + exists (d ++ [EvX (XGeometryWithBorder (xid (self st)))]).
      rewrite Ed, <- app_assoc. split; [reflexivity|].
      split.
      * intros Hin. apply in_app_or in Hin as [Hin|[Hin|[]]].
        -- destruct (Hd _ Hin) as [[l [m Hl]]|[p Hp]]; discriminate.
        -- discriminate.
      * intros w Hin. apply in_app_or in Hin as [Hin|[Hin|[]]].
        -- destruct (Hd _ Hin) as [[l [m Hl]]|[p Hp]]; discriminate.
        -- discriminate.
  - intros a b c d' bw Hg Hc.
    assert (Hs : setup xs st =
      (mkPState (XShmEnabled st1)
         (set_damage_handle (set_border_width (self st1) bw)
            (Some (xs_damage_create xs)))
         (trace st1 ++ [EvX (XGeometryWithBorder (xid (self st)));
                        EvX (XDamageCreate (xid (self st)));
                        EvLog Debug "damage handle";
                        EvReceiver (AddEventReceiver (client_window (self st)))]),
       Ok tt)).
    { unfold setup, bind at 1. rewrite <- Er.
      unfold create_damage_handle, receiver, log, xreq, bind, get_self, emit,
        modify_self, ret; simpl.
      rewrite Hx, Hq, Hg; simpl. rewrite Hx, Hc; simpl. rewrite Hw.
      rewrite <- !app_assoc. reflexivity. }
    rewrite Hs; simpl.
    split; [reflexivity|split; [reflexivity|split; [reflexivity|]]].
    apply in_or_app; right; simpl; tauto.
Qed.

Lemma get_contents_handle_fetch xs st :
  st.(self).(client_window) <> None ->
  st.(self).(contents_handle) = None ->
  snd (get_contents_handle xs st) =
    Ok (match xs.(xs_fail) (XGetPixmapWrapper st.(self).(xid)) with
        | None => xs.(xs_pixmap_wrapper)
        | Some _ => None
        end) /\
  In (EvX (XGetPixmapWrapper st.(self).(xid))) (fst (get_contents_handle xs st)).(trace).
Proof.
  intros Hw Hc.
  unfold get_contents_handle, xlog, try_xerror, xreq, log, emit, modify_self,
    bind, get_self, ret.
  destruct st as [l [cw x u dh sh ch bw] tr]; simpl in *.
  destruct cw as [w|]; [|congruence]. subst ch; simpl.
  destruct (xs_fail xs (XGetPixmapWrapper x)); simpl;
    (split; [reflexivity|]); rewrite <- ?app_assoc;
    apply in_or_app; right; simpl; tauto.
Qed.

Lemma acknowledge_changes_ok xs st st1 :
  truthy_handle st.(self).(damage_handle) = true ->
  st.(self).(client_window) <> None ->
  acknowledge_changes xs st = (st1, Ok tt) ->
  st1.(self).(xid) = st.(self).(xid) /\
  st1.(self).(client_window) = st.(self).(client_window) /\
  st1.(self).(contents_handle) = None.
Proof.
  intros Hdh Hw Hack.
  destruct st as [l [cw x u dh sh ch bw] tr]; simpl in *.
  destruct cw as [w|]; [|congruence].
  destruct dh as [d|]; [|discriminate]. simpl in Hdh.
  revert Hack.
  unfold acknowledge_changes, xlog, try_xerror, xreq, log, emit, bind, get_self, ret,
    has_window; simpl. rewrite Hdh; simpl.
  destruct sh as [h|]; simpl;
    [destruct (xs_fail xs (XShmDiscard (shm_id h))); simpl;
     [intros H; discriminate H|]|];
    destruct (xs_fail xs (XDamageSubtract d)); simpl;
    match goal with
    | |- invalidate_pixmap xs ?s = _ -> _ =>
        destruct (invalidate_pixmap_effect xs s) as [_ [E2 _]];
        destruct (invalidate_pixmap xs s) as [st' r]; simpl in E2;
        intros H; injection H as <- _; rewrite E2; auto
    end.
Qed.

(** Without a truthy damage handle, [acknowledge_changes()] leaves the
    handler as it is, whether the discard of the XShm wrapper succeeds or
    raises. *)
Lemma acknowledge_changes_no_damage xs st :
  truthy_handle st.(self).(damage_handle) = false ->
  (fst (acknowledge_changes xs st)).(self) = st.(self).
Proof.
  intros H.
  destruct st as [l [cw x u dh sh ch bw] tr]; cbn [self damage_handle] in H.
  unfold acknowledge_changes, xreq, log, emit, bind, get_self, ret, raise; simpl.
  rewrite H; simpl.
  destruct sh as [h|]; simpl; [destruct (xs_fail xs (XShmDiscard (shm_id h)))|];
    reflexivity.
Qed.

(** A live handler's cached pixmap is what [get_contents_handle()] returns. *)
Lemma get_contents_handle_hit xs st p :
  st.(self).(client_window) <> None ->
  st.(self).(contents_handle) = Some p ->
  snd (get_contents_handle xs st) = Ok (Some p).
Proof.
  intros Hw Hc. unfold get_contents_handle, bind, get_self, ret.
  destruct (client_window (self st)); [|congruence]. rewrite Hc. reflexivity.
Qed.

(** C4 (corrected).  For a handler that holds a damage handle and a window
    reference (set up and not destroyed), once [acknowledge_changes()]
    returns the cached pixmap is cleared, and the next
    [get_contents_handle()] requests a new pixmap wrapper from the X server
    and returns what that request gives (None if it fails).  A handler
    without a damage handle (before [setup()]) keeps its cached pixmap
    across [acknowledge_changes()], and its next [get_contents_handle()]
    returns that pixmap. *)
Theorem acknowledge_changes_refreshes :
  forall xs st,
    (forall st1,
       truthy_handle st.(self).(damage_handle) = true ->
       st.(self).(client_window) <> None ->
       acknowledge_changes xs st = (st1, Ok tt) ->
       st1.(self).(contents_handle) = None /\
       forall xs',
         snd (get_contents_handle xs' st1) =
           Ok (match xs'.(xs_fail) (XGetPixmapWrapper st.(self).(xid)) with
               | None => xs'.(xs_pixmap_wrapper)
               | Some _ => None
               end) /\
         In (EvX (XGetPixmapWrapper st.(self).(xid)))
            (fst (get_contents_handle xs' st1)).(trace)) /\
    (truthy_handle st.(self).(damage_handle) = false ->
       (fst (acknowledge_changes xs st)).(self).(contents_handle) =
         st.(self).(contents_handle) /\
       forall p xs',
         st.(self).(client_window) <> None ->
         st.(self).(contents_handle) = Some p ->
         snd (get_contents_handle xs' (fst (acknowledge_changes xs st))) = Ok (Some p)).
Proof.
  intros xs st. split.
  - intros st1 Hdh Hw Hack.
    destruct (acknowledge_changes_ok xs st st1 Hdh Hw Hack) as [Hx [Hc Hn]].
    split; [exact Hn|]. intros xs'. rewrite <- Hx.
    apply get_contents_handle_fetch; [rewrite Hc; exact Hw|exact Hn].
  - intros Hdh. pose proof (acknowledge_changes_no_damage xs st Hdh) as Hs.
    split; [rewrite Hs; reflexivity|].
    intros p xs' Hw Hc. apply get_contents_handle_hit; rewrite Hs; assumption.
Qed.

(** An X server answering another pixmap wrapper (the window was
    redrawn at 400x300). *)
Definition xs_400 : XServer :=
  mkXServer no_fail (Some (0, 0, 400, 300, 2)) 78 true (0, 0, 400, 300)
    (Some (mkShm 6 400 300)) (true, true, false) (shm_reads 400 300)
    (Some (mkPixmap 10 100 400 300)) true.

(** A handler that cached a pixmap before [setup()]. *)
Definition st_cached : PState :=
  fst (get_contents_handle xs_800 (st0 (new_handler 42 true))).

(** C4: before [setup()] there is no damage handle, [acknowledge_changes()]
    leaves the cached pixmap in place and the next [get_contents_handle()]
    returns the pixmap cached before the acknowledgement. *)
Lemma acknowledge_changes_keeps_cache_cex :
  snd (acknowledge_changes xs_800 st_cached) = Ok tt /\
  snd (get_contents_handle xs_400 (fst (acknowledge_changes xs_800 st_cached)))
    = Ok (Some (mkPixmap 9 90 800 600)) /\
  st_cached.(self).(contents_handle) = Some (mkPixmap 9 90 800 600) /\
  xs_400.(xs_pixmap_wrapper) <> Some (mkPixmap 9 90 800 600).
Proof. vm_compute. repeat split; congruence. Qed.

Ltac unfold_xshm :=
  unfold get_xshm_handle, has_xshm, xshm_check_size, xshm_negotiate, xreq, log,
    emit, modify_self, bind, get_self, get_XShmEnabled, set_XShmEnabled, ret, raise.

(** C6.  Negotiating a new wrapper in [get_xshm_handle()] (fast path
    eligible, nothing cached): when the allocation answers None the call
    returns None and changes neither the handler nor [XShmEnabled];
    otherwise the wrapper is probed giving [(init_ok, retry_window,
    xshm_failed)]: it is kept and returned if [init_ok] and cleared with
    None returned if not, [use_xshm] of this handler becomes [retry_window],
    and [XShmEnabled] becomes false, with a warning logged, if
    [xshm_failed]; nothing else of the handler changes. *)
Theorem get_xshm_handle_negotiate :
  forall xs st,
    st.(self).(use_xshm) = true ->
    st.(XShmEnabled) = true ->
    xs.(xs_has_XShm) = true ->
    xs.(xs_fail) XHasXShm = None ->
    st.(self).(xshm_handle) = None ->
    xs.(xs_fail) (XGetXShmWrapper st.(self).(xid)) = None ->
    (xs.(xs_XShmWrapper) = None ->
       snd (get_xshm_handle xs st) = Ok None /\
       (fst (get_xshm_handle xs st)).(self) = st.(self) /\
       (fst (get_xshm_handle xs st)).(XShmEnabled) = st.(XShmEnabled)) /\
    (forall h init_ok retry_window xshm_failed,
       xs.(xs_XShmWrapper) = Some h ->
       xs.(xs_fail) (XShmSetup h.(shm_id)) = None ->
       xs.(xs_shm_setup) = (init_ok, retry_window, xshm_failed) ->
       snd (get_xshm_handle xs st) = Ok (if init_ok then Some h else None) /\
       (fst (get_xshm_handle xs st)).(self) =
         set_use_xshm (set_xshm_handle st.(self) (if init_ok then Some h else None))
           retry_window /\
       (fst (get_xshm_handle xs st)).(XShmEnabled) = negb xshm_failed /\
       (xshm_failed = true ->
        In (EvLog Warn "Warning: disabling XShm support following irrecoverable error")
           (fst (get_xshm_handle xs st)).(trace))).
Proof.
  intros xs st Hu Hl Hx Hf Hn Ha.
  destruct st as [l [cw x u dh sh ch bw] tr]; simpl in *; subst.
  unfold_xshm; simpl. rewrite Hf, Hx; simpl. rewrite Ha; simpl.
  split.
  - intros Hw. rewrite Hw; simpl. auto.
  - intros h i r f Hw Hs Hp. rewrite Hw; simpl. rewrite Hs; simpl. rewrite Hp.
    destruct i, r, f; simpl; repeat split; try reflexivity;
      intros Hft; try discriminate Hft; apply in_or_app; right; simpl; tauto.
Qed.

(** C5 (corrected).  With a wrapper [h] cached: when [has_xshm()] holds
    and the window's current size differs from the size [h] recorded,
    [get_xshm_handle()] releases [h] right after reading the geometry,
    before any allocation, and then either raises an X error or returns
    the wrapper it keeps, which is None or the newly allocated one; when
    the sizes match, [h] is returned unchanged; when [has_xshm()] is false,
    None is returned and the cached wrapper stays in place. *)
Theorem get_xshm_handle_size_check :
  forall xs st h w gx gy ww wh,
    st.(self).(client_window) = Some w ->
    st.(self).(xshm_handle) = Some h ->
    xs.(xs_window_geometry) = (gx, gy, ww, wh) ->
    xs.(xs_fail) XHasXShm = None ->
    xs.(xs_fail) (XGetGeometry w) = None ->
    (st.(self).(use_xshm) = true -> st.(XShmEnabled) = true ->
     xs.(xs_has_XShm) = true ->
       ((h.(shm_width), h.(shm_height)) <> (ww, wh) ->
          (exists rest, (fst (get_xshm_handle xs st)).(trace) =
             st.(trace) ++ [EvX XHasXShm; EvX (XGetGeometry w);
                            EvX (XShmCleanup h.(shm_id))] ++ rest) /\
          ((exists msg, snd (get_xshm_handle xs st) = Raise (XError msg)) \/
           (snd (get_xshm_handle xs st) =
              Ok (fst (get_xshm_handle xs st)).(self).(xshm_handle) /\
            ((fst (get_xshm_handle xs st)).(self).(xshm_handle) = None \/
             (fst (get_xshm_handle xs st)).(self).(xshm_handle) = xs.(xs_XShmWrapper))))) /\
       ((h.(shm_width), h.(shm_height)) = (ww, wh) ->
          get_xshm_handle xs st =
            (mkPState st.(XShmEnabled) st.(self)
               (st.(trace) ++ [EvX XHasXShm; EvX (XGetGeometry w)]),
             Ok (Some h)))) /\
    (st.(self).(use_xshm) && st.(XShmEnabled) && xs.(xs_has_XShm) = false ->
       snd (get_xshm_handle xs st) = Ok None /\
       (fst (get_xshm_handle xs st)).(self) = st.(self)).
Proof.
  intros xs st h w gx gy ww wh Hw Hh Hg Hf1 Hf2.
  destruct st as [l [cw x u dh sh ch bw] tr]; simpl in *; subst.
  split.
  - intros Hu Hl Hx; subst; split.
    + intros Hne.
      assert (Hd : negb (shm_width h =? ww) || negb (shm_height h =? wh) = true).
      { destruct (Z.eqb_spec (shm_width h) ww), (Z.eqb_spec (shm_height h) wh);
          subst; simpl; auto; exfalso; apply Hne; reflexivity. }
      unfold_xshm; simpl. rewrite Hf1, Hx; simpl. rewrite Hf2, Hg; simpl.
      rewrite Hd; simpl.
      destruct (xs_fail xs (XShmCleanup (shm_id h))) eqn:Ec; simpl.
      { split; [exists []; rewrite <- !app_assoc; reflexivity|left; eauto]. }
      destruct (xs_fail xs (XGetXShmWrapper x)) eqn:Ea; simpl.
      { split; [eexists; rewrite <- !app_assoc; reflexivity|left; eauto]. }
      destruct (xs_XShmWrapper xs) as [h'|] eqn:Ew; simpl.
      2: { split; [eexists; rewrite <- !app_assoc; reflexivity|right; auto]. }
      destruct (xs_fail xs (XShmSetup (shm_id h'))) eqn:Es; simpl.
      { split; [eexists; rewrite <- !app_assoc; reflexivity|left; eauto]. }
      destruct (xs_shm_setup xs) as [[i r] f]; simpl.
      destruct i, r, f; simpl;
        (split; [eexists; rewrite <- !app_assoc; reflexivity|right; auto]).
    + intros Heq. injection Heq as E1 E2.
      unfold_xshm; simpl. rewrite Hf1, Hx; simpl. rewrite Hf2, Hg; simpl.
      rewrite E1, E2, !Z.eqb_refl; simpl. rewrite <- app_assoc. reflexivity.
  - intros Hoff. unfold_xshm; simpl.
    destruct u; simpl in *; [|auto].
    destruct l; simpl in *; [|auto].
    rewrite Hf1, Hoff; simpl. auto.
Qed.

Lemma get_xshm_handle_contents xs st :
  (fst (get_xshm_handle xs st)).(self).(contents_handle) = st.(self).(contents_handle).
Proof.
  apply (get_xshm_handle_preserves
           (fun _ s => s.(contents_handle) = st.(self).(contents_handle)));
    simpl; auto.
Qed.

Lemma xshm_attempt_contents xs p x y w h st :
  (fst (xshm_attempt xs p x y w h st)).(self).(contents_handle) =
    st.(self).(contents_handle) /\
  (forall img, snd (xshm_attempt xs p x y w h st) = Ok (Some img) ->
     img.(img_source) = FromXShm).
Proof.
  pose proof (get_xshm_handle_contents xs st) as Hc.
  unfold xshm_attempt, xsync, xreq, emit, bind, ret, raise.
  destruct (get_xshm_handle xs st) as [st1 [[sh|]|e]]; simpl in *.
  - 
    destruct (xs_fail xs _); simpl; split; auto; intros img Hi; simpl in Hi;
      try discriminate Hi.
    destruct (xs_shm_image xs _) as [[[[? ?] ?] ?]|]; simpl in Hi;
      [injection Hi as <-; reflexivity|discriminate Hi].
  - split; auto; intros img Hi; discriminate Hi.
  - split; auto; intros img Hi; discriminate Hi.
Qed.

Lemma get_contents_handle_some xs st st1 p :
  get_contents_handle xs st = (st1, Ok (Some p)) ->
  st1.(self).(contents_handle) = Some p /\
  st1.(self).(client_window) = st.(self).(client_window) /\
  st.(self).(client_window) <> None.
Proof.
  unfold get_contents_handle, xlog, try_xerror, xreq, log, emit, modify_self,
    bind, get_self, ret.
  destruct st as [l [cw x u dh sh ch bw] tr]; simpl.
  destruct cw as [w|]; simpl; [|intros H; discriminate H].
  destruct ch as [c|]; simpl.
  - intros H; injection H as <- <-; simpl; repeat split; congruence.
  - destruct (xs_fail xs (XGetPixmapWrapper x)); simpl;
      intros H; injection H as <- E; simpl; repeat split; congruence.
Qed.

Lemma pixmap_read_spec xs p x y width height st :
  (fst (pixmap_read xs p x y width height st)).(self) = st.(self) /\
  (exists r, snd (pixmap_read xs p x y width height st) = Ok r) /\
  (forall img, snd (pixmap_read xs p x y width height st) = Ok (Some img) ->
     img = mkImage FromPixmap x y (Z.min p.(pm_width) width) (Z.min p.(pm_height) height) /\
     In (EvX (XPixmapGetImage p.(pm_id) x y img.(img_width) img.(img_height)))
        (fst (pixmap_read xs p x y width height st)).(trace)).
Proof.
  unfold pixmap_read, try_xerror, xsync, xreq, log, emit, bind, ret, raise.
  destruct (negb (Z.min (pm_width p) width =? width)
            || negb (Z.min (pm_height p) height =? height)); simpl;
  (destruct (xs_fail xs _) as [m|] eqn:Ef; simpl;
   [ destruct (String.prefix "BadMatch" m); simpl;
     (split; [reflexivity|split; [eauto|intros img Hi; discriminate Hi]])
   | split; [reflexivity|split; [eauto|]];
     intros img Hi; destruct (xs_pixmap_image xs); [|discriminate Hi];
     injection Hi as <-; split; [reflexivity|];
     rewrite <- ?app_assoc; apply in_or_app; right; simpl; auto ]).
Qed.

Lemma fast_path_spec xs p x y width height st :
  (fst (try_xerror (xshm_attempt xs p x y width height) xshm_error st)).(self).(contents_handle)
    = st.(self).(contents_handle) /\
  (forall img, snd (try_xerror (xshm_attempt xs p x y width height) xshm_error st)
                 = Ok (Some img) -> img.(img_source) = FromXShm).
Proof.
  destruct (xshm_attempt_contents xs p x y width height st) as [Hc Hi].
  unfold try_xerror.
  destruct (xshm_attempt xs p x y width height st) as [st1 [a|[m| | |]]];
    simpl in *; auto.
  unfold xshm_error, log, emit, bind, ret.
  destruct (window_gone m); simpl; split; auto; intros img H; discriminate H.
Qed.

Lemma pixmap_read_error xs p x y width height st m :
  xs.(xs_fail) (XPixmapGetImage p.(pm_id) x y (Z.min p.(pm_width) width)
                  (Z.min p.(pm_height) height)) = Some m ->
  snd (pixmap_read xs p x y width height st) = Ok None.
Proof.
  intros Hf.
  unfold pixmap_read, try_xerror, xsync, xreq, log, emit, bind, ret, raise.
  destruct (negb (Z.min (pm_width p) width =? width)
            || negb (Z.min (pm_height p) height =? height)); simpl;
    rewrite Hf; simpl; destruct (String.prefix "BadMatch" m); reflexivity.
Qed.

(** C1.  When [get_image(x, y, width, height)] returns an image read on the
    slow path (from the pixmap wrapper [p] it uses), the width and height
    read are [min(p.get_width(), width)] and [min(p.get_height(), height)]:
    the image is never larger than the requested rectangle nor than the
    pixmap, and the request sent is for that clamped rectangle. *)
Theorem get_image_slow_path_clamped :
  forall xs x y width height st st' img,
    get_image xs x y width height st = (st', Ok (Some img)) ->
    img.(img_source) = FromPixmap ->
    exists p,
      st'.(self).(contents_handle) = Some p /\
      img.(img_width) = Z.min p.(pm_width) width /\
      img.(img_height) = Z.min p.(pm_height) height /\
      img.(img_width) <= width /\ img.(img_width) <= p.(pm_width) /\
      img.(img_height) <= height /\ img.(img_height) <= p.(pm_height) /\
      In (EvX (XPixmapGetImage p.(pm_id) x y img.(img_width) img.(img_height)))
         st'.(trace).
Proof.
  intros xs x y width height st st' img Hgi Hsrc.
  unfold get_image in Hgi. unfold bind at 1 in Hgi.
  destruct (get_contents_handle xs st) as [st1 [[p|]|e]] eqn:Ec;
    [| unfold log, emit, bind, ret in Hgi; discriminate Hgi | discriminate Hgi].
  destruct (get_contents_handle_some xs st st1 p Ec) as [Hp _].
  destruct (fast_path_spec xs p x y width height st1) as [Hc Hx].
  unfold bind in Hgi.
  destruct (try_xerror (xshm_attempt xs p x y width height) xshm_error st1)
    as [st2 [[img'|]|e]]; simpl in Hc, Hx.
  - unfold ret in Hgi. injection Hgi as <- <-.
    rewrite (Hx img' eq_refl) in Hsrc; discriminate Hsrc.
  - destruct (pixmap_read_spec xs p x y width height st2) as [Hs [_ Hr]].
    rewrite Hgi in Hs, Hr. simpl in Hs, Hr.
    destruct (Hr img eq_refl) as [Himg Hin]. exists p.
    rewrite Hs, Hc, Hp. subst img; simpl in *.
    repeat split; auto; lia.
  - discriminate Hgi.
Qed.

(** C3.  When the fast path of [get_image()] raises an X error of the
    window-gone class ([BadMatch] or [BadWindow]), [get_image()] logs it at
    debug level and its result is exactly that of the slow path run
    afterwards; it raises nothing, and when the slow path's request fails
    with an X error it returns None. *)
Theorem get_image_fast_path_error :
  forall xs x y width height st st1 p st2 msg,
    get_contents_handle xs st = (st1, Ok (Some p)) ->
    xshm_attempt xs p x y width height st1 = (st2, Raise (XError msg)) ->
    window_gone msg = true ->
    get_image xs x y width height st =
      pixmap_read xs p x y width height
        (mkPState st2.(XShmEnabled) st2.(self)
           (st2.(trace) ++ [EvLog Debug "get_image BadMatch ignored (window already gone?)"])) /\
    (exists r, snd (get_image xs x y width height st) = Ok r) /\
    (forall m,
       xs.(xs_fail) (XPixmapGetImage p.(pm_id) x y (Z.min p.(pm_width) width)
                       (Z.min p.(pm_height) height)) = Some m ->
       window_gone m = true ->
       snd (get_image xs x y width height st) = Ok None).
Proof.
  intros xs x y width height st st1 p st2 msg Hc Ha Hg.
  assert (E : get_image xs x y width height st =
      pixmap_read xs p x y width height
        (mkPState st2.(XShmEnabled) st2.(self)
           (st2.(trace) ++ [EvLog Debug "get_image BadMatch ignored (window already gone?)"]))).
  { unfold get_image, bind at 1. rewrite Hc.
    unfold bind at 1, try_xerror at 1. rewrite Ha.
    unfold xshm_error, log, emit, bind, ret. rewrite Hg. reflexivity. }
  split; [exact E|]. rewrite E. split.
  - apply pixmap_read_spec.
  - intros m Hf _. eapply pixmap_read_error; exact Hf.
Qed.

(** ** Further scenarios: witnesses and counterexamples *)

(** The fast path is refused for good by the probe. *)
Definition xs_shm_broken : XServer :=
  mkXServer no_fail (Some (0, 0, 800, 600, 2)) 79 true (0, 0, 800, 600)
    (Some (mkShm 7 800 600)) (false, false, true) (shm_reads 800 600)
    (Some (mkPixmap 11 110 800 600)) true.

(** The window is gone: no geometry. *)
Definition xs_gone : XServer :=
  mkXServer no_fail None 80 true (0, 0, 800, 600)
    None (false, true, false) (fun _ => None) None false.

Definition badwindow_msg : string := "BadWindow (invalid Window parameter)".

(** The fast-path read fails with BadWindow. *)
Definition badwindow_on_shm : xcall -> option string :=
  fun c => match c with
           | XShmGetImage _ _ _ _ _ _ => Some badwindow_msg
           | _ => None
           end.

Definition xs_800_badwindow : XServer :=
  mkXServer badwindow_on_shm (Some (0, 0, 800, 600, 2)) 77 true (0, 0, 800, 600)
    (Some (mkShm 5 800 600)) (true, true, false) (shm_reads 800 600)
    (Some (mkPixmap 9 90 800 600)) true.

(** A handler set up on a 400x300 window with the fast path off. *)
Definition st_noshm_400 : PState :=
  fst (setup xs_400 (st0 (new_handler 42 false))).

(** A handler set up on an 800x600 window. *)
Definition st_setup_800 : PState :=
  fst (setup xs_800 (st0 (new_handler 42 true))).

(** A handler with an 800x600 wrapper cached. *)
Definition st_wrapper_800 : PState :=
  mkPState true (set_xshm_handle (new_handler 42 true) (Some (mkShm 5 800 600))) [].

Lemma get_image_slow_path_clamped_witness :
  get_image xs_400 0 0 800 600 st_noshm_400 =
    (fst (get_image xs_400 0 0 800 600 st_noshm_400),
     Ok (Some (mkImage FromPixmap 0 0 400 300))) /\
  exists p,
    (fst (get_image xs_400 0 0 800 600 st_noshm_400)).(self).(contents_handle) = Some p /\
    400 = Z.min p.(pm_width) 800 /\ 300 = Z.min p.(pm_height) 600 /\
    400 <= 800 /\ 400 <= p.(pm_width) /\ 300 <= 600 /\ 300 <= p.(pm_height) /\
    In (EvX (XPixmapGetImage p.(pm_id) 0 0 400 300))
       (fst (get_image xs_400 0 0 800 600 st_noshm_400)).(trace).
Proof.
  split; [vm_compute; reflexivity|].
  exact (get_image_slow_path_clamped xs_400 0 0 800 600 st_noshm_400
           (fst (get_image xs_400 0 0 800 600 st_noshm_400))
           (mkImage FromPixmap 0 0 400 300)
           ltac:(vm_compute; reflexivity) eq_refl).
Defined.

Lemma get_image_fast_path_error_witness :
  let st1 := fst (get_contents_handle xs_800_badwindow st_setup_800) in
  let p := mkPixmap 9 90 800 600 in
  let st2 := fst (xshm_attempt xs_800_badwindow p 0 0 800 600 st1) in
  get_contents_handle xs_800_badwindow st_setup_800 = (st1, Ok (Some p)) /\
  xshm_attempt xs_800_badwindow p 0 0 800 600 st1 =
    (st2, Raise (XError badwindow_msg)) /\
  window_gone badwindow_msg = true /\
  snd (get_image xs_800_badwindow 0 0 800 600 st_setup_800) =
    Ok (Some (mkImage FromPixmap 0 0 800 600)) /\
  (exists r, snd (get_image xs_800_badwindow 0 0 800 600 st_setup_800) = Ok r).
Proof.
  intros st1 p st2.
  assert (H1 : get_contents_handle xs_800_badwindow st_setup_800 = (st1, Ok (Some p)))
    by (vm_compute; reflexivity).
  assert (H2 : xshm_attempt xs_800_badwindow p 0 0 800 600 st1 =
    (st2, Raise (XError badwindow_msg)))
    by (vm_compute; reflexivity).
  assert (H3 : window_gone badwindow_msg = true)
    by reflexivity.
  split; [exact H1|split; [exact H2|split; [exact H3|split]]].
  - vm_compute; reflexivity.
  - exact (proj1 (proj2 (get_image_fast_path_error xs_800_badwindow 0 0 800 600
             st_setup_800 st1 p st2 _ H1 H2 H3))).
Defined.

(** A set-up handler with a pixmap cached. *)
Definition st_setup_cached : PState :=
  fst (get_contents_handle xs_800 st_setup_800).

Lemma acknowledge_changes_refreshes_witness :
  truthy_handle st_setup_cached.(self).(damage_handle) = true /\
  st_setup_cached.(self).(client_window) <> None /\
  acknowledge_changes xs_800 st_setup_cached =
    (fst (acknowledge_changes xs_800 st_setup_cached), Ok tt) /\
  snd (get_contents_handle xs_400 (fst (acknowledge_changes xs_800 st_setup_cached)))
    = Ok (Some (mkPixmap 10 100 400 300)) /\
  truthy_handle st_cached.(self).(damage_handle) = false /\
  snd (get_contents_handle xs_400 (fst (acknowledge_changes xs_800 st_cached)))
    = Ok (Some (mkPixmap 9 90 800 600)).
Proof.
  assert (H1 : truthy_handle st_setup_cached.(self).(damage_handle) = true)
    by (vm_compute; reflexivity).
  assert (H2 : st_setup_cached.(self).(client_window) <> None)
    by (vm_compute; intros H; discriminate H).
  assert (H3 : acknowledge_changes xs_800 st_setup_cached =
    (fst (acknowledge_changes xs_800 st_setup_cached), Ok tt))
    by (vm_compute; reflexivity).
  assert (H4 : truthy_handle st_cached.(self).(damage_handle) = false)
    by (vm_compute; reflexivity).
  split; [exact H1|split; [exact H2|split; [exact H3|]]].
  destruct (proj1 (acknowledge_changes_refreshes xs_800 st_setup_cached) _ H1 H2 H3)
    as [_ Hf].
  split; [exact (proj1 (Hf xs_400))|split; [exact H4|]].
  apply (proj2 (proj2 (acknowledge_changes_refreshes xs_800 st_cached) H4));
    [vm_compute; intros H; discriminate H|vm_compute; reflexivity].
Defined.

Lemma get_xshm_handle_size_check_witness :
  st_wrapper_800.(self).(client_window) = Some 42 /\
  st_wrapper_800.(self).(xshm_handle) = Some (mkShm 5 800 600) /\
  xs_400.(xs_window_geometry) = (0, 0, 400, 300) /\
  xs_400.(xs_fail) XHasXShm = None /\
  xs_400.(xs_fail) (XGetGeometry 42) = None /\
  exists rest, (fst (get_xshm_handle xs_400 st_wrapper_800)).(trace) =
    st_wrapper_800.(trace) ++ [EvX XHasXShm; EvX (XGetGeometry 42);
                               EvX (XShmCleanup 5)] ++ rest.
Proof.
  assert (H1 : st_wrapper_800.(self).(client_window) = Some 42) by reflexivity.
  assert (H2 : st_wrapper_800.(self).(xshm_handle) = Some (mkShm 5 800 600))
    by reflexivity.
  assert (H3 : xs_400.(xs_window_geometry) = (0, 0, 400, 300)) by reflexivity.
  assert (H4 : xs_400.(xs_fail) XHasXShm = None) by reflexivity.
  assert (H5 : xs_400.(xs_fail) (XGetGeometry 42) = None) by reflexivity.
  do 5 (split; [assumption|]).
  destruct (get_xshm_handle_size_check xs_400 st_wrapper_800 (mkShm 5 800 600) 42
              0 0 400 300 H1 H2 H3 H4 H5) as [Hon _].
  destruct (Hon eq_refl eq_refl eq_refl) as [Hstale _].
  exact (proj1 (Hstale ltac:(intros H; discriminate H))).
Defined.

Lemma get_xshm_handle_negotiate_witness :
  (st0 (new_handler 42 true)).(self).(use_xshm) = true /\
  (st0 (new_handler 42 true)).(XShmEnabled) = true /\
  xs_shm_broken.(xs_has_XShm) = true /\
  xs_shm_broken.(xs_fail) XHasXShm = None /\
  (st0 (new_handler 42 true)).(self).(xshm_handle) = None /\
  xs_shm_broken.(xs_fail) (XGetXShmWrapper 42) = None /\
  snd (get_xshm_handle xs_shm_broken (st0 (new_handler 42 true))) = Ok None /\
  (fst (get_xshm_handle xs_shm_broken (st0 (new_handler 42 true)))).(XShmEnabled) = false.
Proof.
  do 6 (split; [reflexivity|]).
  destruct (get_xshm_handle_negotiate xs_shm_broken (st0 (new_handler 42 true))
              eq_refl eq_refl eq_refl eq_refl eq_refl eq_refl) as [_ Hp].
  destruct (Hp (mkShm 7 800 600) false false true eq_refl eq_refl eq_refl)
    as [Hr [_ [Hl _]]].
  split; [exact Hr|exact Hl].
Defined.

Lemma setup_spec_witness :
  xs_gone.(xs_fail) (XGeometryWithBorder 42) = None /\
  snd (setup xs_gone (st0 (new_handler 42 true))) =
    Raise (Unmanageable "window disappeared already").
Proof.
  split; [reflexivity|].
  destruct (setup_spec xs_gone (st0 (new_handler 42 true)) eq_refl) as [Hnone _].
  exact (proj1 (Hnone eq_refl)).
Defined.

(** C5: handler 0 caches an 800x600 wrapper; handler 1's probe reports an
    irrecoverable failure, which turns [XShmEnabled] off; the window of
    handler 0 is then 400x300, and [get_xshm_handle()] on it returns None
    without releasing or clearing the stale wrapper. *)
Definition p_stale : Process :=
  process_run (initial_process true)
    [NewHandler 42 true; NewHandler 43 true;
     Call 0 xs_800 OpGetXShmHandle;
     Call 1 xs_shm_broken OpGetXShmHandle].

Lemma get_xshm_handle_stale_kept_cex :
  p_stale.(p_XShmEnabled) = false /\
  exists s,
    nth_error p_stale.(p_handlers) 0 = Some s /\
    s.(use_xshm) = true /\
    s.(xshm_handle) = Some (mkShm 5 800 600) /\
    xs_400.(xs_window_geometry) = (0, 0, 400, 300) /\
    get_xshm_handle xs_400 (mkPState p_stale.(p_XShmEnabled) s p_stale.(p_trace)) =
      (mkPState p_stale.(p_XShmEnabled) s p_stale.(p_trace), Ok None).
Proof.
  split; [vm_compute; reflexivity|].
  eexists; split; [vm_compute; reflexivity|].
  vm_compute. repeat split.
Qed.

(** * Further properties of [WindowDamageHandler] *)

Ltac in_trace :=
  rewrite <- ?app_assoc; apply in_or_app; right; simpl; tauto.

Ltac split_matches :=
  repeat (simpl in *; match goal with
  | |- context [match ?x with _ => _ end] =>
      lazymatch type of x with
      | (PState * _)%type => fail
      | _ => destruct x eqn:?
      end
  end); simpl in *.

(** X1: destroy() on a live handler returns normally, keeps the process latch, and leaves the handler with no window, no XShm wrapper and no pixmap; a truthy damage handle is cleared too. The event receiver is removed, and every resource the handler held is released: XDamageDestroy for a non-zero damage handle, cleanup of the XShm wrapper and of the pixmap. *)
Theorem destroy_releases :
  forall xs st w,
    st.(self).(client_window) = Some w ->
    let s := st.(self) in
    let st' := fst (destroy xs st) in
    snd (destroy xs st) = Ok tt /\
    st'.(XShmEnabled) = st.(XShmEnabled) /\
    st'.(self) =
      mkHandler None s.(xid) s.(use_xshm)
        (if truthy_handle s.(damage_handle) then None else s.(damage_handle))
        None None s.(border_width) /\
    In (EvReceiver (RemoveEventReceiver w)) st'.(trace) /\
    (forall d, s.(damage_handle) = Some d -> d <> 0 ->
       In (EvX (XDamageDestroy d)) st'.(trace)) /\
    (forall h, s.(xshm_handle) = Some h -> In (EvX (XShmCleanup h.(shm_id))) st'.(trace)) /\
    (forall p, s.(contents_handle) = Some p -> In (EvX (XPixmapCleanup p.(pm_id))) st'.(trace)).
Proof.
  intros xs st w Hw s st'. subst s st'.
  destruct st as [l [cw x u dh sh ch bw] tr]; simpl in *; subst cw.
  unfold destroy, do_destroy, destroy_damage_handle, invalidate_pixmap, receiver,
    xlog, try_xerror, xreq, log, emit, modify_self, bind, get_self, ret, raise,
    set_client_window, set_contents_handle, set_damage_handle, set_xshm_handle.
  split_matches;
    repeat split; try reflexivity; intros; try congruence;
    repeat match goal with H : Some _ = Some _ |- _ => injection H as <- end;
    try in_trace;
    try (subst; simpl in *;
         match goal with E : negb (?d =? 0) = false |- _ =>
           apply negb_false_iff, Z.eqb_eq in E; contradiction end).
Qed.

(** X2: acknowledge_changes() never changes the process-wide XShm latch, and the only handler field it may change is the cached pixmap, which it may clear. *)
Theorem acknowledge_changes_scope :
  forall xs st,
    let st' := fst (acknowledge_changes xs st) in
    st'.(XShmEnabled) = st.(XShmEnabled) /\
    (st'.(self) = st.(self) \/ st'.(self) = set_contents_handle st.(self) None).
Proof.
  intros xs st st'. subst st'.
  destruct st as [l [cw x u dh sh ch bw] tr].
  unfold acknowledge_changes, invalidate_pixmap, xlog, try_xerror, xreq, log, emit,
    modify_self, bind, get_self, ret, raise, set_contents_handle.
  split_matches; auto.
Qed.

(** X3: If the handler holds an XShm wrapper and discarding it fails with an X error, acknowledge_changes() raises that error, because discard() is not wrapped in xlog. The damage region is then not subtracted and the handler is unchanged. *)
Theorem acknowledge_changes_discard_error :
  forall xs st h m,
    st.(self).(xshm_handle) = Some h ->
    xs.(xs_fail) (XShmDiscard h.(shm_id)) = Some m ->
    acknowledge_changes xs st =
      (mkPState st.(XShmEnabled) st.(self)
         (st.(trace) ++ [EvLog Debug "acknowledge_changes()"; EvX (XShmDiscard h.(shm_id))]),
       Raise (XError m)).
Proof.
  intros xs st h m Hh Hf.
  destruct st as [l [cw x u dh sh ch bw] tr]; simpl in *; subst sh.
  unfold acknowledge_changes, xreq, log, emit, bind, get_self, ret, raise; simpl.
  rewrite Hf; simpl. rewrite <- app_assoc. reflexivity.
Qed.

(** X4: With an XShm wrapper, a non-zero damage handle and a live window, acknowledge_changes() discards the XShm wrapper before it issues XDamageSubtract. If the discard succeeds, the call returns normally whatever XDamageSubtract does. *)
Theorem acknowledge_changes_order :
  forall xs st h d,
    st.(self).(xshm_handle) = Some h ->
    st.(self).(damage_handle) = Some d -> d <> 0 ->
    st.(self).(client_window) <> None ->
    xs.(xs_fail) (XShmDiscard h.(shm_id)) = None ->
    snd (acknowledge_changes xs st) = Ok tt /\
    exists rest, (fst (acknowledge_changes xs st)).(trace) =
      st.(trace) ++ [EvLog Debug "acknowledge_changes()"; EvX (XShmDiscard h.(shm_id));
                     EvX (XDamageSubtract d)] ++ rest.
Proof.
  intros xs st h d Hh Hd Hd0 Hw Hf.
  destruct st as [l [cw x u dh sh ch bw] tr]; simpl in *; subst sh dh.
  destruct cw as [w|]; [|congruence].
  unfold acknowledge_changes, invalidate_pixmap, xlog, try_xerror, xreq, log, emit,
    modify_self, bind, get_self, ret, raise, has_window, truthy_handle; simpl.
  rewrite Hf; simpl. apply Z.eqb_neq in Hd0. rewrite Hd0; simpl.
  destruct (xs_fail xs (XDamageSubtract d)); simpl;
    destruct ch as [c|]; simpl; try destruct (xs_fail xs (XPixmapCleanup (pm_id c)));
    simpl; (split; [reflexivity|]); eexists; rewrite <- !app_assoc; reflexivity.
Qed.

(** X5: Once get_contents_handle() has returned a pixmap, calling it again returns the same pixmap, issues no X request and leaves the state unchanged, whatever the X server would answer. *)
Theorem get_contents_handle_cached :
  forall xs st st1 p xs',
    get_contents_handle xs st = (st1, Ok (Some p)) ->
    get_contents_handle xs' st1 = (st1, Ok (Some p)).
Proof.
  intros xs st st1 p xs' H.
  destruct (get_contents_handle_some xs st st1 p H) as [Hp [Hw Hn]].
  unfold get_contents_handle, bind, get_self, ret.
  rewrite Hw. destruct (client_window (self st)); [|congruence].
  rewrite Hp. reflexivity.
Qed.

Definition xshm_refused (_ : bool) (s : WindowDamageHandler) : Prop :=
  s.(use_xshm) = false.

(** X6: Once a handler's use_xshm flag is false, no sequence of handler operations sets it back. From then on get_xshm_handle() returns None without any X request or state change. *)
Theorem use_xshm_off_sticky :
  forall st calls xs',
    st.(self).(use_xshm) = false ->
    let st1 := fst (run_ops calls st) in
    st1.(self).(use_xshm) = false /\
    get_xshm_handle xs' st1 = (st1, Ok None).
Proof.
  intros st calls xs' Hu st1.
  assert (H : st1.(self).(use_xshm) = false).
  { apply (run_ops_preserves xshm_refused); unfold xshm_refused; simpl; auto. }
  split; [exact H|].
  unfold get_xshm_handle, has_xshm, bind, get_self, ret; simpl.
  rewrite H. reflexivity.
Qed.

Lemma xshm_attempt_image xs p x y width height st img :
  snd (xshm_attempt xs p x y width height st) = Ok (Some img) ->
  exists sid,
    xs.(xs_shm_image) (XShmGetImage sid p.(pm_pixmap) x y width height) =
      Some (img.(img_x), img.(img_y), img.(img_width), img.(img_height)) /\
    In (EvX (XShmGetImage sid p.(pm_pixmap) x y width height))
       (fst (xshm_attempt xs p x y width height st)).(trace).
Proof.
  unfold xshm_attempt, xsync, xreq, emit, bind, ret, raise.
  destruct (get_xshm_handle xs st) as [st1 [[sh|]|e]]; simpl;
    [|intros Hi; discriminate Hi|intros Hi; discriminate Hi].
  destruct (xs_fail xs _); simpl; [intros Hi; discriminate Hi|].
  destruct (xs_shm_image xs (XShmGetImage (shm_id sh) (pm_pixmap p) x y width height))
    as [[[[ix iy] iw] ih]|] eqn:E; simpl; [|intros Hi; discriminate Hi].
  intros Hi; injection Hi as <-. exists (shm_id sh). split; [exact E|].
  apply in_or_app; right; simpl; auto.
Qed.

(** X7: An image that get_image() returns from the XShm fast path is the image the XShm wrapper answered to an XShmGetImage request for exactly the requested rectangle: unlike the slow path, the fast path does not clamp the request to the pixmap's size. The request reads the pixmap of the cached contents handle. *)
Theorem get_image_fast_path_request :
  forall xs x y width height st st' img,
    get_image xs x y width height st = (st', Ok (Some img)) ->
    img.(img_source) = FromXShm ->
    exists p sid,
      st'.(self).(contents_handle) = Some p /\
      In (EvX (XShmGetImage sid p.(pm_pixmap) x y width height)) st'.(trace) /\
      xs.(xs_shm_image) (XShmGetImage sid p.(pm_pixmap) x y width height) =
        Some (img.(img_x), img.(img_y), img.(img_width), img.(img_height)).
Proof.
  intros xs x y width height st st' img Hgi Hsrc.
  unfold get_image in Hgi. unfold bind at 1 in Hgi.
  destruct (get_contents_handle xs st) as [st1 [[p|]|e]] eqn:Ec;
    [| unfold log, emit, bind, ret in Hgi; discriminate Hgi | discriminate Hgi].
  destruct (get_contents_handle_some xs st st1 p Ec) as [Hp _].
  destruct (xshm_attempt_contents xs p x y width height st1) as [Hc _].
  pose proof (xshm_attempt_image xs p x y width height st1) as Hi.
  unfold bind, try_xerror in Hgi.
  destruct (xshm_attempt xs p x y width height st1) as [st2 [[img'|]|[m| | |]]] eqn:Ea;
    simpl in Hc, Hi.
  - unfold ret in Hgi. injection Hgi as <- <-.
    destruct (Hi img' eq_refl) as [sid [Hans Hin]].
    exists p, sid. split; [rewrite Hc; exact Hp|split; [exact Hin|exact Hans]].
  - destruct (pixmap_read_spec xs p x y width height st2) as [_ [_ Hr]].
    rewrite Hgi in Hr. simpl in Hr. destruct (Hr img eq_refl) as [Himg _].
    subst img; discriminate Hsrc.
  - unfold xshm_error, log, emit, bind, ret in Hgi.
    destruct (window_gone m); simpl in Hgi;
    match type of Hgi with
    | pixmap_read ?a ?b ?c ?d ?e ?f ?g = _ =>
        destruct (pixmap_read_spec a b c d e f g) as [_ [_ Hr]]
    end;
    rewrite Hgi in Hr; simpl in Hr; destruct (Hr img eq_refl) as [Himg _];
    subst img; discriminate Hsrc.
  - discriminate Hgi.
  - discriminate Hgi.
  - discriminate Hgi.
Qed.

Lemma get_contents_handle_no_raise xs st :
  exists r, snd (get_contents_handle xs st) = Ok r.
Proof.
  destruct st as [l [cw x u dh sh ch bw] tr].
  unfold get_contents_handle, xlog, try_xerror, xreq, log, emit, modify_self,
    bind, get_self, ret, raise.
  split_matches; eauto.
Qed.

Lemma xshm_attempt_xerror_only xs p x y width height st :
  st.(self).(client_window) <> None ->
  (exists r, snd (xshm_attempt xs p x y width height st) = Ok r) \/
  (exists m, snd (xshm_attempt xs p x y width height st) = Raise (XError m)).
Proof.
  intros Hw.
  destruct st as [l [cw x0 u dh sh ch bw] tr]; simpl in Hw.
  destruct cw as [w|]; [|congruence].
  unfold xshm_attempt, xsync; unfold_xshm.
  split_matches; eauto.
Qed.

(** X8: get_image() never raises, whatever the X server answers. Every X error, on the fast path or the slow path, is caught, and the result is an image or None. *)
Theorem get_image_no_raise :
  forall xs x y width height st,
    exists r, snd (get_image xs x y width height st) = Ok r.
Proof.
  intros xs x y width height st.
  unfold get_image, bind at 1.
  destruct (get_contents_handle_no_raise xs st) as [r Hr].
  destruct (get_contents_handle xs st) as [st1 r1] eqn:Ec; simpl in Hr; subst r1.
  destruct r as [p|].
  - destruct (get_contents_handle_some xs st st1 p Ec) as [_ [Hw Hn]].
    rewrite <- Hw in Hn.
    unfold bind, try_xerror.
    destruct (xshm_attempt_xerror_only xs p x y width height st1 Hn) as [[a Ha]|[m Ha]];
      destruct (xshm_attempt xs p x y width height st1) as [st2 r2]; simpl in Ha; subst r2.
    + destruct a as [img|]; [unfold ret; simpl; eauto|apply pixmap_read_spec].
    + unfold xshm_error, log, emit, bind, ret.
      destruct (window_gone m); simpl; apply pixmap_read_spec.
  - unfold log, emit, bind, ret; simpl; eauto.
Qed.

(** X9: After setup(), whether it succeeds or raises, the handler holds no cached pixmap, and a pixmap cached before the call has been cleaned up. *)
Theorem setup_clears_pixmap :
  forall xs st,
    (fst (setup xs st)).(self).(contents_handle) = None /\
    (forall p, st.(self).(contents_handle) = Some p ->
       In (EvX (XPixmapCleanup p.(pm_id))) (fst (setup xs st)).(trace)).
Proof.
  intros xs st.
  destruct st as [l [cw x u dh sh ch bw] tr].
  unfold setup, create_damage_handle, invalidate_pixmap, receiver, xlog, try_xerror,
    xreq, log, emit, modify_self, bind, get_self, ret, raise,
    set_contents_handle, set_border_width, set_damage_handle.
  split_matches; split; intros; try reflexivity; try congruence;
    repeat match goal with H : Some _ = Some _ |- _ => injection H as <- end;
    in_trace.
Qed.

(** ** Scenarios for the further properties *)

(** Discarding the XShm wrapper fails. *)
Definition discard_fails : xcall -> option string :=
  fun c => match c with
           | XShmDiscard _ => Some badwindow_msg
           | _ => None
           end.

Definition xs_800_discard_fails : XServer :=
  mkXServer discard_fails (Some (0, 0, 800, 600, 2)) 77 true (0, 0, 800, 600)
    (Some (mkShm 5 800 600)) (true, true, false) (shm_reads 800 600)
    (Some (mkPixmap 9 90 800 600)) true.

(** A set-up handler holding an XShm wrapper and a pixmap. *)
Definition st_shm_ready : PState :=
  fst (get_xshm_handle xs_800 st_setup_cached).

(** A handler whose probe refused the fast path for this window. *)
Definition st_refused : PState :=
  fst (get_xshm_handle xs_shm_broken (st0 (new_handler 42 true))).

Lemma destroy_releases_witness :
  st_shm_ready.(self).(client_window) = Some 42 /\
  snd (destroy xs_800 st_shm_ready) = Ok tt /\
  In (EvX (XShmCleanup 5)) (fst (destroy xs_800 st_shm_ready)).(trace).
Proof.
  assert (H : st_shm_ready.(self).(client_window) = Some 42) by (vm_compute; reflexivity).
  destruct (destroy_releases xs_800 st_shm_ready 42 H)
    as [Hr [_ [_ [_ [_ [Hc _]]]]]].
  split; [exact H|split; [exact Hr|]].
  exact (Hc (mkShm 5 800 600) ltac:(vm_compute; reflexivity)).
Defined.

Lemma acknowledge_changes_discard_error_witness :
  st_shm_ready.(self).(xshm_handle) = Some (mkShm 5 800 600) /\
  xs_800_discard_fails.(xs_fail) (XShmDiscard 5) = Some badwindow_msg /\
  snd (acknowledge_changes xs_800_discard_fails st_shm_ready) = Raise (XError badwindow_msg).
Proof.
  assert (H1 : st_shm_ready.(self).(xshm_handle) = Some (mkShm 5 800 600))
    by (vm_compute; reflexivity).
  assert (H2 : xs_800_discard_fails.(xs_fail) (XShmDiscard (shm_id (mkShm 5 800 600)))
               = Some badwindow_msg) by reflexivity.
  split; [exact H1|split; [exact H2|]].
  rewrite (acknowledge_changes_discard_error xs_800_discard_fails st_shm_ready
             (mkShm 5 800 600) badwindow_msg H1 H2).
  reflexivity.
Defined.

Lemma acknowledge_changes_order_witness :
  snd (acknowledge_changes xs_800 st_shm_ready) = Ok tt /\
  exists rest, (fst (acknowledge_changes xs_800 st_shm_ready)).(trace) =
    st_shm_ready.(trace) ++ [EvLog Debug "acknowledge_changes()"; EvX (XShmDiscard 5);
                             EvX (XDamageSubtract 77)] ++ rest.
Proof.
  exact (acknowledge_changes_order xs_800 st_shm_ready (mkShm 5 800 600) 77
           ltac:(vm_compute; reflexivity) ltac:(vm_compute; reflexivity)
           ltac:(lia) ltac:(vm_compute; discriminate) eq_refl).
Defined.

Lemma get_contents_handle_cached_witness :
  get_contents_handle xs_800 st_setup_800 = (st_setup_cached, Ok (Some (mkPixmap 9 90 800 600))) /\
  get_contents_handle xs_400 st_setup_cached =
    (st_setup_cached, Ok (Some (mkPixmap 9 90 800 600))).
Proof.
  assert (H : get_contents_handle xs_800 st_setup_800 =
              (st_setup_cached, Ok (Some (mkPixmap 9 90 800 600))))
    by (vm_compute; reflexivity).
  split; [exact H|].
  exact (get_contents_handle_cached xs_800 st_setup_800 st_setup_cached _ xs_400 H).
Defined.

Lemma use_xshm_off_sticky_witness :
  st_refused.(self).(use_xshm) = false /\
  get_xshm_handle xs_800 (fst (run_ops [(xs_800, OpSetup); (xs_800, OpGetImage 0 0 800 600)]
                                st_refused)) =
    (fst (run_ops [(xs_800, OpSetup); (xs_800, OpGetImage 0 0 800 600)] st_refused), Ok None).
Proof.
  assert (H : st_refused.(self).(use_xshm) = false) by (vm_compute; reflexivity).
  split; [exact H|].
  exact (proj2 (use_xshm_off_sticky st_refused
                  [(xs_800, OpSetup); (xs_800, OpGetImage 0 0 800 600)] xs_800 H)).
Defined.

Lemma get_image_fast_path_request_witness :
  get_image xs_800 0 0 1000 700 st_setup_800 =
    (fst (get_image xs_800 0 0 1000 700 st_setup_800),
     Ok (Some (mkImage FromXShm 0 0 800 600))) /\
  exists p sid,
    (fst (get_image xs_800 0 0 1000 700 st_setup_800)).(self).(contents_handle) = Some p /\
    In (EvX (XShmGetImage sid p.(pm_pixmap) 0 0 1000 700))
       (fst (get_image xs_800 0 0 1000 700 st_setup_800)).(trace) /\
    xs_800.(xs_shm_image) (XShmGetImage sid p.(pm_pixmap) 0 0 1000 700) =
      Some (0, 0, 800, 600).
Proof.
  assert (H : get_image xs_800 0 0 1000 700 st_setup_800 =
    (fst (get_image xs_800 0 0 1000 700 st_setup_800),
     Ok (Some (mkImage FromXShm 0 0 800 600)))) by (vm_compute; reflexivity).
  split; [exact H|].
  exact (get_image_fast_path_request xs_800 0 0 1000 700 st_setup_800 _ _ H eq_refl).
Defined.

(** * Proofs about content type guessing *)

Module ContentGuesserProofs.

Import ContentGuesser.

(** ** Strings *)

Lemma ascii_eqb_true a b : ascii_eqb a b = true <-> a = b.
Proof. unfold ascii_eqb; destruct (ascii_dec a b); split; congruence. Qed.

Lemma ascii_eqb_neq a b : a <> b -> ascii_eqb a b = false.
Proof. unfold ascii_eqb; destruct (ascii_dec a b); congruence. Qed.

Lemma pystr_eqb_true a b : pystr_eqb a b = true <-> a = b.
Proof. unfold pystr_eqb; destruct (list_eq_dec ascii_dec a b); split; congruence. Qed.

Lemma pystr_eqb_refl a : pystr_eqb a a = true.
Proof. apply pystr_eqb_true; reflexivity. Qed.

Lemma pystr_eqb_neq a b : a <> b -> pystr_eqb a b = false.
Proof. unfold pystr_eqb; destruct (list_eq_dec ascii_dec a b); congruence. Qed.

Lemma split_first_app c a b :
  ~ In c a -> split_first c (a ++ c :: b) = Some (a, b).
Proof.
  induction a as [|x a IH]; simpl; intros Hn.
  - unfold ascii_eqb; destruct (ascii_dec c c); congruence.
  - rewrite ascii_eqb_neq by (intros E; apply Hn; left; congruence).
    rewrite IH by tauto. reflexivity.
Qed.

Lemma split_first_none c s : ~ In c s -> split_first c s = None.
Proof.
  induction s as [|x s IH]; simpl; intros Hn; [reflexivity|].
  rewrite ascii_eqb_neq by (intros E; apply Hn; left; congruence).
  rewrite IH by tauto. reflexivity.
Qed.

Lemma rsplit_last_app c a b :
  ~ In c b -> rsplit_last c (a ++ c :: b) = Some (a, b).
Proof.
  intros Hn. unfold rsplit_last.
  rewrite rev_app_distr. simpl. rewrite <- app_assoc. simpl.
  rewrite split_first_app by (rewrite <- in_rev; exact Hn).
  rewrite !rev_involutive. reflexivity.
Qed.

Lemma rsplit_last_none c s : ~ In c s -> rsplit_last c s = None.
Proof.
  intros Hn. unfold rsplit_last.
  rewrite split_first_none by (rewrite <- in_rev; exact Hn). reflexivity.
Qed.

Lemma first_field_none c s : ~ In c s -> first_field c s = s.
Proof. intros Hn. unfold first_field. rewrite split_first_none by exact Hn. reflexivity. Qed.

Lemma split_all_none c s : ~ In c s -> split_all c s = [s].
Proof.
  induction s as [|x s IH]; simpl; intros Hn; [reflexivity|].
  rewrite ascii_eqb_neq by (intros E; apply Hn; left; congruence).
  rewrite IH by tauto. reflexivity.
Qed.

Lemma lstrip_by_keep p u c w :
  (forall y, In y u -> p y = false) -> p c = false ->
  lstrip_by p (u ++ c :: w) = u ++ c :: w.
Proof.
  intros Hu Hc. destruct u as [|y u]; simpl.
  - rewrite Hc; reflexivity.
  - rewrite (Hu y (or_introl eq_refl)); reflexivity.
Qed.

Lemma lstrip_by_in p s c : In c s -> p c = false -> In c (lstrip_by p s).
Proof.
  induction s as [|x s IH]; simpl; intros Hin Hc; [contradiction|].
  destruct (p x) eqn:Ex.
  - destruct Hin as [<-|Hin]; [congruence|auto].
  - exact Hin.
Qed.

Lemma strip_by_in p s c : In c s -> p c = false -> In c (strip_by p s).
Proof.
  intros Hin Hc. unfold strip_by, rstrip_by.
  rewrite <- in_rev. apply lstrip_by_in; [|exact Hc].
  rewrite <- in_rev. apply lstrip_by_in; assumption.
Qed.

Lemma lstrip_by_incl p s c : In c (lstrip_by p s) -> In c s.
Proof.
  induction s as [|x s IH]; simpl; [tauto|].
  destruct (p x); simpl; auto.
Qed.

Lemma rstrip_by_incl p s c : In c (rstrip_by p s) -> In c s.
Proof.
  unfold rstrip_by. rewrite <- in_rev. intros H.
  apply lstrip_by_incl in H. rewrite <- in_rev in H. exact H.
Qed.

(** [entry.rstrip("\n\r")] leaves a string alone when its last character
    is not a line end. *)
Lemma rstrip_nl_keep a c b :
  in_chars ["010"; "013"]%char c = false ->
  (forall y, In y b -> in_chars ["010"; "013"]%char y = false) ->
  rstrip_nl (a ++ c :: b) = a ++ c :: b.
Proof.
  intros Hc Hb. unfold rstrip_nl, rstrip_by.
  rewrite rev_app_distr. simpl. rewrite <- app_assoc. simpl.
  rewrite lstrip_by_keep; [| intros y Hy; apply Hb; rewrite in_rev; exact Hy | exact Hc].
  rewrite rev_app_distr; simpl. rewrite !rev_involutive, <- app_assoc. reflexivity.
Qed.

Lemma rstrip_nl_newline x :
  rstrip_nl (x ++ ["010"%char]) = rstrip_nl x.
Proof. unfold rstrip_nl, rstrip_by. rewrite rev_app_distr. reflexivity. Qed.

Lemma not_nl c :
  c <> "010"%char -> c <> "013"%char -> in_chars ["010"; "013"]%char c = false.
Proof.
  intros H1 H2. unfold in_chars; simpl.
  rewrite (ascii_eqb_neq c "010"%char H1), (ascii_eqb_neq c "013"%char H2). reflexivity.
Qed.

Lemma startswith_hash_false p rest :
  hd_error p <> Some "#"%char ->
  startswith (S "#") (p ++ ":"%char :: rest) = false.
Proof.
  intros H. destruct p as [|x p]; simpl; [reflexivity|].
  rewrite ascii_eqb_neq by (intros E; apply H; simpl; congruence). reflexivity.
Qed.

Lemma py_strip_nonempty s c : In c s -> is_space c = false -> is_emptyb (py_strip s) = false.
Proof.
  intros Hin Hc. pose proof (strip_by_in is_space s c Hin Hc) as H.
  unfold py_strip. destruct (strip_by is_space s); [contradiction|reflexivity].
Qed.

(** ** Dictionaries *)

Lemma dict_get_set {V} k k' (v : V) d :
  dict_get k' (dict_set k v d) = if pystr_eqb k' k then Some v else dict_get k' d.
Proof.
  induction d as [|[k0 v0] t IH]; simpl; [reflexivity|].
  destruct (pystr_eqb k k0) eqn:E.
  - apply pystr_eqb_true in E; subst k0. simpl.
    destruct (pystr_eqb k' k); reflexivity.
  - simpl. destruct (pystr_eqb k' k0) eqn:E'; [|exact IH].
    apply pystr_eqb_true in E'; subst k0.
    rewrite pystr_eqb_neq; [reflexivity|].
    intros ->. rewrite pystr_eqb_refl in E. discriminate.
Qed.

Lemma dict_get_in {V} k (v : V) d : dict_get k d = Some v -> In (k, v) d.
Proof.
  induction d as [|[k0 v0] t IH]; simpl; [discriminate|].
  destruct (pystr_eqb k k0) eqn:E; intros H.
  - apply pystr_eqb_true in E; subst; injection H as ->; left; reflexivity.
  - right; auto.
Qed.

Lemma in_dict_set {V} a (b : V) k v d :
  In (a, b) (dict_set k v d) -> (a = k /\ b = v) \/ In (a, b) d.
Proof.
  induction d as [|[k0 v0] t IH]; simpl.
  - intros [H|[]]; injection H as <- <-; left; auto.
  - destruct (pystr_eqb k k0) eqn:E; simpl.
    + apply pystr_eqb_true in E; subst k0.
      intros [H|H]; [injection H as <- <-; left; auto|right; right; exact H].
    + intros [H|H]; [right; left; exact H|].
      destruct (IH H) as [H'|H']; [left; exact H'|right; right; exact H'].
Qed.

Definition keys {V} (d : list (pystr * V)) : list pystr := map fst d.

Lemma keys_dict_set_in {V} k (v : V) d :
  In k (keys d) -> keys (dict_set k v d) = keys d.
Proof.
  induction d as [|[k0 v0] t IH]; simpl; [tauto|].
  destruct (pystr_eqb k k0) eqn:E; simpl; [reflexivity|].
  intros [H|H]; [subst k0; rewrite pystr_eqb_refl in E; discriminate|].
  rewrite IH by exact H. reflexivity.
Qed.

Lemma in_keys_dict_set {V} k k' (v : V) d :
  In k' (keys d) -> In k' (keys (dict_set k v d)).
Proof.
  induction d as [|[k0 v0] t IH]; simpl; [tauto|].
  destruct (pystr_eqb k k0); simpl; tauto.
Qed.

Lemma in_keys_dict_set_self {V} k (v : V) d : In k (keys (dict_set k v d)).
Proof.
  induction d as [|[k0 v0] t IH]; simpl; [tauto|].
  destruct (pystr_eqb k k0) eqn:E; simpl.
  - apply pystr_eqb_true in E; left; congruence.
  - right; exact IH.
Qed.

Lemma nodup_dict_set {V} k (v : V) d :
  NoDup (keys d) -> NoDup (keys (dict_set k v d)).
Proof.
  induction d as [|[k0 v0] t IH]; simpl; intros Hd.
  - constructor; [simpl; tauto|constructor].
  - inversion Hd as [|? ? Hn Ht]; subst.
    destruct (pystr_eqb k k0) eqn:E; simpl; [constructor; assumption|].
    constructor; [|apply IH, Ht].
    intros Hin. 
    assert (Hk : In k0 (keys (dict_set k v t)) -> k0 = k \/ In k0 (keys t)).
    { clear. induction t as [|[k1 v1] t IH]; simpl.
      - intros [H|[]]; left; congruence.
      - destruct (pystr_eqb k k1) eqn:E1; simpl.
        + apply pystr_eqb_true in E1; subst; intros [H|H]; [right; left; exact H|tauto].
        + intros [H|H]; [right; left; exact H|destruct (IH H); tauto]. }
    destruct (Hk Hin) as [->|H]; [rewrite pystr_eqb_refl in E; discriminate|contradiction].
Qed.

Lemma dict_get_update {V} k (d e : list (pystr * V)) :
  dict_get k (dict_update d e) =
    fold_left (fun acc kv => if pystr_eqb k (fst kv) then Some (snd kv) else acc) e (dict_get k d).
Proof.
  revert d. induction e as [|[k0 v0] t IH]; intros d; simpl; [reflexivity|].
  unfold dict_update in *; simpl. rewrite IH, dict_get_set. reflexivity.
Qed.

Lemma fold_last_absent {V} k (e : list (pystr * V)) a :
  ~ In k (keys e) ->
  fold_left (fun acc kv => if pystr_eqb k (fst kv) then Some (snd kv) else acc) e a = a.
Proof.
  revert a. induction e as [|[k0 v0] t IH]; intros a Hn; simpl; [reflexivity|].
  simpl in Hn. rewrite pystr_eqb_neq by (intros ->; tauto). apply IH; tauto.
Qed.

Lemma fold_last_present {V} k (e : list (pystr * V)) a b :
  In k (keys e) ->
  fold_left (fun acc kv => if pystr_eqb k (fst kv) then Some (snd kv) else acc) e a =
  fold_left (fun acc kv => if pystr_eqb k (fst kv) then Some (snd kv) else acc) e b.
Proof.
  revert a b. induction e as [|[k0 v0] t IH]; intros a b Hin; simpl in *; [contradiction|].
  destruct (pystr_eqb k k0) eqn:E.
  - reflexivity.
  - destruct Hin as [->|Hin]; [rewrite pystr_eqb_refl in E; discriminate|].
    apply IH; exact Hin.
Qed.

Lemma keys_update_present {V} (d e : list (pystr * V)) :
  (forall k, In k (keys e) -> In k (keys d)) -> keys (dict_update d e) = keys d.
Proof.
  revert d. induction e as [|[k0 v0] t IH]; intros d He; simpl; [reflexivity|].
  unfold dict_update in *; simpl.
  rewrite IH.
  - apply keys_dict_set_in, He; simpl; tauto.
  - intros k Hk. apply in_keys_dict_set, He; simpl; tauto.
Qed.

Lemma in_keys_update {V} (d e : list (pystr * V)) k :
  In k (keys e) \/ In k (keys d) -> In k (keys (dict_update d e)).
Proof.
  revert d. induction e as [|[k0 v0] t IH]; intros d H; simpl in *.
  - destruct H; [contradiction|exact H].
  - unfold dict_update in *; simpl. apply IH.
    destruct H as [[<-|H]|H]; [right; apply in_keys_dict_set_self|left; exact H|].
    right; apply in_keys_dict_set; exact H.
Qed.

Lemma nodup_update {V} (d e : list (pystr * V)) :
  NoDup (keys d) -> NoDup (keys (dict_update d e)).
Proof.
  revert d. induction e as [|[k0 v0] t IH]; intros d H; simpl; [exact H|].
  unfold dict_update in *; simpl. apply IH, nodup_dict_set, H.
Qed.

(** Two dictionaries with the same keys in the same order and the same
    lookups are equal. *)
Lemma dict_ext {V} (d1 d2 : list (pystr * V)) :
  NoDup (keys d1) -> keys d1 = keys d2 ->
  (forall k, dict_get k d1 = dict_get k d2) -> d1 = d2.
Proof.
  revert d2. induction d1 as [|[k1 v1] t1 IH]; intros [|[k2 v2] t2] Hn Hk Hg;
    simpl in *; try discriminate; [reflexivity|].
  injection Hk as <- Hk.
  pose proof (Hg k1) as H1. rewrite pystr_eqb_refl in H1. injection H1 as <-.
  inversion Hn as [|? ? Hn1 Ht]; subst.
  f_equal. apply IH; auto.
  intros k. specialize (Hg k).
  destruct (pystr_eqb k k1) eqn:E; [|exact Hg].
  apply pystr_eqb_true in E; subst k.
  assert (N1 : ~ In k1 (keys t1)) by exact Hn1.
  assert (N2 : ~ In k1 (keys t2)) by (rewrite <- Hk; exact Hn1).
  assert (G : forall {W} (t : list (pystr * W)), ~ In k1 (keys t) -> dict_get k1 t = None).
  { intros W t. induction t as [|[k0 w0] t' IHt]; simpl; intros Hn'; [reflexivity|].
    rewrite pystr_eqb_neq by (intros ->; tauto). apply IHt; tauto. }
  rewrite (G _ t1 N1), (G _ t2 N2). reflexivity.
Qed.

(** Applying the same [update] twice is applying it once. *)
Lemma dict_update_twice {V} (d e : list (pystr * V)) :
  NoDup (keys d) -> dict_update (dict_update d e) e = dict_update d e.
Proof.
  intros Hn. apply dict_ext.
  - apply nodup_update, nodup_update, Hn.
  - apply keys_update_present. intros k Hk. apply in_keys_update; left; exact Hk.
  - intros k. rewrite !dict_get_update.
    destruct (in_dec (list_eq_dec ascii_dec) k (keys e)) as [Hin|Hout].
    + apply fold_last_present; exact Hin.
    + rewrite !fold_last_absent by exact Hout. reflexivity.
Qed.

(** ** Content type definitions *)

(** [content_type_defs[prop_name][re.compile(regex)]], if present. *)
Definition def_lookup (prop_name regex : pystr) (d : defs) : option (pystr * pystr) :=
  match dict_get prop_name d with Some r => dict_get regex r | None => None end.

Lemma def_lookup_add p r ct p' r' d :
  def_lookup p' r' (defs_add p r ct d) =
    if pystr_eqb p' p && pystr_eqb r' r then Some (r, ct) else def_lookup p' r' d.
Proof.
  unfold def_lookup, defs_add. rewrite dict_get_set.
  destruct (pystr_eqb p' p) eqn:Ep; simpl; [|reflexivity].
  apply pystr_eqb_true in Ep; subst p'. rewrite dict_get_set.
  destruct (pystr_eqb r' r); [reflexivity|].
  destruct (dict_get p d); reflexivity.
Qed.

Lemma colon_not_space : is_space ":"%char = false.
Proof. reflexivity. Qed.

(** How [process_content_type_entry] reads a well-formed entry. *)
Lemma process_entry_parse regex_ok d p r t :
  ~ In ":"%char p -> ~ In "="%char t -> ~ In "010"%char t -> ~ In "013"%char t ->
  hd_error p <> Some "#"%char ->
  process_content_type_entry regex_ok d (p ++ ":"%char :: r ++ "="%char :: t) =
    if regex_ok r then (true, defs_add p r (py_strip (first_field ":"%char t)) d)
    else (false, d).
Proof.
  intros Hp Ht Hn Hr Hh.
  assert (E : p ++ ":"%char :: r ++ "="%char :: t = (p ++ ":"%char :: r) ++ "="%char :: t)
    by (rewrite <- app_assoc; reflexivity).
  unfold process_content_type_entry.
  assert (Hs : rstrip_nl (p ++ ":"%char :: r ++ "="%char :: t) =
               p ++ ":"%char :: r ++ "="%char :: t).
  { rewrite E. apply rstrip_nl_keep; [reflexivity|].
    intros y Hy. apply not_nl; intros ->; contradiction. }
  rewrite Hs, startswith_hash_false by exact Hh.
  rewrite (py_strip_nonempty _ ":"%char); [simpl| apply in_or_app; right; left; reflexivity
                                             | reflexivity].
  rewrite E, rsplit_last_app by exact Ht.
  rewrite split_first_app by exact Hp. reflexivity.
Qed.

(** X10: process_content_type_entry() accepts comment and blank lines without changing the definitions. It returns False, again without changing them, for an entry with no '=', for one with no ':' before the last '=', and for one whose regular expression does not compile. *)
Theorem process_content_type_entry_rejects :
  forall regex_ok d e,
    let e' := rstrip_nl e in
    (startswith (S "#") e' || is_emptyb (py_strip e') = true ->
       process_content_type_entry regex_ok d e = (true, d)) /\
    (forall d', process_content_type_entry regex_ok d e = (false, d') -> d' = d) /\
    (startswith (S "#") e' || is_emptyb (py_strip e') = false ->
       ~ In "="%char e -> process_content_type_entry regex_ok d e = (false, d)) /\
    (forall m t,
       startswith (S "#") e' || is_emptyb (py_strip e') = false ->
       e' = m ++ "="%char :: t -> ~ In "="%char t -> ~ In ":"%char m ->
       process_content_type_entry regex_ok d e = (false, d)) /\
    (forall p r t,
       startswith (S "#") e' || is_emptyb (py_strip e') = false ->
       e' = p ++ ":"%char :: r ++ "="%char :: t -> ~ In "="%char t -> ~ In ":"%char p ->
       regex_ok r = false -> process_content_type_entry regex_ok d e = (false, d)).
Proof.
  intros regex_ok d e e'.
  unfold process_content_type_entry. fold e'.
  split; [intros H; rewrite H; reflexivity|].
  split.
  { intros d'.
    destruct (startswith (S "#") e' || is_emptyb (py_strip e')); [congruence|].
    destruct (rsplit_last "="%char e') as [[m t]|]; [|congruence].
    destruct (split_first ":"%char m) as [[p r]|]; [|congruence].
    destruct (regex_ok r); congruence. }
  split.
  { intros H Hn. rewrite H. rewrite rsplit_last_none; [reflexivity|].
    intros Hin. apply Hn. exact (rstrip_by_incl _ _ _ Hin). }
  split.
  { intros m t H He Ht Hm. rewrite H, He, rsplit_last_app by exact Ht.
    rewrite split_first_none by exact Hm. reflexivity. }
  { intros p r t H He Ht Hp Hr. rewrite H, He.
    replace (p ++ ":"%char :: r ++ "="%char :: t) with ((p ++ ":"%char :: r) ++ "="%char :: t)
      by (rewrite <- app_assoc; reflexivity).
    rewrite rsplit_last_app by exact Ht. rewrite split_first_app by exact Hp.
    rewrite Hr. reflexivity. }
Qed.

(** X11: An entry 'prop:regex=type', where prop has no ':' and does not start with '#', type has no '=' and no line break, and regex compiles, is accepted and stored under prop and regex; no other definition changes. The type stored is the text before the first ':' of the type field, stripped, so a '#' comment without a ':' is stored as part of the type. *)
Theorem process_content_type_entry_stores :
  forall regex_ok d p r t,
    ~ In ":"%char p -> ~ In "="%char t -> ~ In "010"%char t -> ~ In "013"%char t ->
    hd_error p <> Some "#"%char -> regex_ok r = true ->
    let res := process_content_type_entry regex_ok d (p ++ ":"%char :: r ++ "="%char :: t) in
    fst res = true /\
    def_lookup p r (snd res) = Some (r, py_strip (first_field ":"%char t)) /\
    (~ In ":"%char t -> def_lookup p r (snd res) = Some (r, py_strip t)) /\
    (forall p' r', p' <> p \/ r' <> r -> def_lookup p' r' (snd res) = def_lookup p' r' d).
Proof.
  intros regex_ok d p r t Hp Ht Hn Hr Hh Hok res. subst res.
  rewrite process_entry_parse by assumption. rewrite Hok; simpl.
  rewrite def_lookup_add, !pystr_eqb_refl; simpl.
  split; [reflexivity|split; [reflexivity|split]].
  - intros Hc. rewrite first_field_none by exact Hc. reflexivity.
  - intros p' r' [H|H].
    + rewrite def_lookup_add, (pystr_eqb_neq p' p H). reflexivity.
    + rewrite def_lookup_add, (pystr_eqb_neq r' r H), andb_false_r. reflexivity.
Qed.

(** X12: When reading a .conf file raises part way, the content-type lines already read stay in the definitions. The same failure in a content-categories directory drops every category of that file. *)
Theorem content_type_file_read_error :
  forall regex_ok fs dir f lines d,
    fs.(fs_isdir) dir = true -> fs.(fs_listdir) dir = Some [f] ->
    endswith (S ".conf") f = true -> fs.(fs_isfile) (path_join dir f) = true ->
    fs.(fs_read) (path_join dir f) = (lines, true) ->
    load_content_type_dir regex_ok fs dir d = POk (process_entries regex_ok d lines) /\
    load_content_categories_dir fs dir = POk [].
Proof.
  intros regex_ok fs dir f lines d H1 H2 H3 H4 H5.
  unfold load_content_type_dir, load_content_categories_dir,
    load_content_type_file, load_content_categories_file.
  rewrite H1, H2. cbn [sorted fold_right insert_sorted fold_left].
  rewrite H3, H4, H5. split; reflexivity.
Qed.

Lemma categories_line_parse d cat ty :
  ~ In ":"%char ty -> ~ In "010"%char ty -> ~ In "013"%char ty ->
  hd_error cat <> Some "#"%char ->
  categories_line d (cat ++ ":"%char :: ty ++ ["010"%char]) =
    dict_set (lower (strip_tab_space cat)) (strip_tab_space ty) d.
Proof.
  intros Hc Hn Hr Hh. unfold categories_line.
  replace (cat ++ ":"%char :: ty ++ ["010"%char]) with ((cat ++ ":"%char :: ty) ++ ["010"%char])
    by (rewrite <- app_assoc; reflexivity).
  rewrite rstrip_nl_newline.
  assert (Hs : rstrip_nl (cat ++ ":"%char :: ty) = cat ++ ":"%char :: ty).
  { destruct (list_eq_dec ascii_dec ty []) as [->|Hne].
    - replace (cat ++ [":"%char]) with (cat ++ ":"%char :: []) by reflexivity.
      apply rstrip_nl_keep; [reflexivity|simpl; tauto].
    - destruct (exists_last Hne) as [ty' [c Ec]]. rewrite Ec in *.
      replace (cat ++ ":"%char :: ty' ++ [c]) with ((cat ++ ":"%char :: ty') ++ c :: [])
        by (rewrite <- app_assoc; reflexivity).
      apply rstrip_nl_keep; [|simpl; tauto].
      apply not_nl; intros ->; [apply Hn|apply Hr]; apply in_or_app; right; left; reflexivity. }
  rewrite Hs, startswith_hash_false by exact Hh.
  rewrite (py_strip_nonempty _ ":"%char); [simpl| apply in_or_app; right; left; reflexivity
                                             | reflexivity].
  rewrite rsplit_last_app by exact Hc. reflexivity.
Qed.

(** X13: In a content-categories file, a last line 'category:type' (category not starting with '#', type without ':') decides the type of its category. The category is stripped of tabs and spaces and lower-cased, and the type is stripped of tabs and spaces. *)
Theorem content_categories_last_line :
  forall fs cc_file lines cat ty,
    ~ In ":"%char ty -> ~ In "010"%char ty -> ~ In "013"%char ty ->
    hd_error cat <> Some "#"%char ->
    fs.(fs_read) cc_file = (lines ++ [cat ++ ":"%char :: ty ++ ["010"%char]], false) ->
    exists d, load_content_categories_file fs cc_file = POk d /\
      dict_get (lower (strip_tab_space cat)) d = Some (strip_tab_space ty).
Proof.
  intros fs cc_file lines cat ty Hc Hn Hr Hh Hread.
  unfold load_content_categories_file. rewrite Hread.
  eexists; split; [reflexivity|].
  rewrite fold_left_app; simpl. rewrite categories_line_parse by assumption.
  rewrite dict_get_set, pystr_eqb_refl. reflexivity.
Qed.

(** X14: If XPRA_CONTENT_TYPE_DEFS is a single entry 'prop:regex=type' (no ',', the other conditions as for a stored entry), the loaded definitions hold it under prop and regex, and it overrides a definition from the configuration files with the same property and regex. *)
Theorem content_type_defs_env_entry :
  forall regex_ok env fs p r t g d,
    env.(CONTENT_TYPE_DEFS) = p ++ ":"%char :: r ++ "="%char :: t ->
    ~ In ","%char (p ++ ":"%char :: r ++ "="%char :: t) ->
    ~ In ":"%char p -> ~ In "="%char t -> ~ In "010"%char t -> ~ In "013"%char t ->
    hd_error p <> Some "#"%char -> regex_ok r = true ->
    load_content_type_defs regex_ok env fs None = (g, POk d) ->
    def_lookup p r d = Some (r, py_strip (first_field ":"%char t)).
Proof.
  intros regex_ok env fs p r t g d He Hcomma Hp Ht Hn Hr Hh Hok Hload.
  unfold load_content_type_defs in Hload.
  destruct (load_content_type_dirs regex_ok fs (system_conf_dirs env) []) as [d1 [e1|]];
    [discriminate Hload|].
  destruct (if reads_user_dirs env
            then load_content_type_dirs regex_ok fs (user_conf_dirs env) d1
            else (d1, None)) as [d2 [e2|]]; [discriminate Hload|].
  injection Hload as _ <-.
  rewrite He, split_all_none by exact Hcomma.
  unfold process_entries; simpl.
  rewrite process_entry_parse by assumption. rewrite Hok; simpl.
  rewrite def_lookup_add, !pystr_eqb_refl. reflexivity.
Qed.

(** ** Content categories *)

Lemma load_content_categories_dir_raise fs dir e :
  load_content_categories_dir fs dir = PRaise e -> e = OSError.
Proof.
  unfold load_content_categories_dir.
  destruct (fs_isdir fs dir); [|discriminate].
  destruct (fs_listdir fs dir); congruence.
Qed.

(** What the system loop leaves: a mapping without duplicate keys whose
    last step was [update] with the [v] it leaves bound. *)
Definition system_loop_inv (ctt : categories) (v : option categories) : Prop :=
  NoDup (keys ctt) /\
  (v = None \/ exists pre vl, v = Some vl /\ ctt = dict_update pre vl /\ NoDup (keys pre)).

Lemma load_system_categories_inv fs dirs : forall ctt v ctt' v',
  system_loop_inv ctt v ->
  load_system_categories fs dirs ctt v = POk (ctt', v') ->
  system_loop_inv ctt' v' /\ (dirs <> [] -> v' <> None) /\ (dirs = [] -> ctt' = ctt /\ v' = v).
Proof.
  induction dirs as [|d rest IH]; intros ctt v ctt' v' [Hn Hv] H; cbn [load_system_categories] in H.
  - injection H as <- <-. split; [split; assumption|split; [congruence|auto]].
  - destruct (load_content_categories_dir fs (path_join d (S "content-categories")))
      as [v''|e]; [|discriminate H].
    assert (Hi : system_loop_inv (dict_update ctt v'') (Some v'')).
    { split; [apply nodup_update, Hn|right; exists ctt, v''; auto]. }
    destruct (IH _ _ _ _ Hi H) as [Hinv [Hne Hnil]].
    split; [exact Hinv|split; [|congruence]].
    intros _. destruct rest as [|d' rest'].
    + destruct (Hnil eq_refl) as [_ ->]. congruence.
    + apply Hne. congruence.
Qed.

Lemma load_user_categories_same fs dirs : forall ctt vl,
  dict_update ctt vl = ctt ->
  load_user_categories fs dirs ctt (Some vl) = POk ctt \/
  load_user_categories fs dirs ctt (Some vl) = PRaise OSError.
Proof.
  induction dirs as [|d rest IH]; intros ctt vl H; cbn [load_user_categories]; [left; reflexivity|].
  destruct (load_content_categories_dir fs (path_join d (S "content-categories")))
    as [v0|e] eqn:E.
  - rewrite H. apply IH, H.
  - right. rewrite (load_content_categories_dir_raise _ _ _ E). reflexivity.
Qed.

(** The same platform without user configuration directories. *)
Definition without_user_dirs (env : Env) : Env :=
  mkEnv env.(system_conf_dirs) [] env.(POSIX) env.(OSX) env.(uid)
    env.(DEFAULT_CONTENT_TYPE) env.(CONTENT_TYPE_DEFS).

(** X15: load_categories_to_type() reads the user directories but ignores what they hold. With at least one system directory, the result equals the result without user directories, unless a user directory listing raises OSError. With no system directory, reading a user directory raises UnboundLocalError or OSError. *)
Theorem load_categories_to_type_user_dirs :
  forall env fs,
    (env.(system_conf_dirs) <> [] ->
       load_categories_to_type env fs = load_categories_to_type (without_user_dirs env) fs \/
       load_categories_to_type env fs = PRaise OSError) /\
    (env.(system_conf_dirs) = [] -> reads_user_dirs env = true ->
       env.(user_conf_dirs) <> [] ->
       load_categories_to_type env fs = PRaise UnboundLocalError \/
       load_categories_to_type env fs = PRaise OSError).
Proof.
  intros env fs. split.
  - intros Hs. unfold load_categories_to_type.
    replace (reads_user_dirs (without_user_dirs env)) with (reads_user_dirs env) by reflexivity.
    change (system_conf_dirs (without_user_dirs env)) with (system_conf_dirs env).
    change (user_conf_dirs (without_user_dirs env)) with (@nil pystr).
    destruct (load_system_categories fs (system_conf_dirs env) [] None) as [[ctt v]|e] eqn:E;
      [|left; reflexivity].
    assert (Hi0 : system_loop_inv [] None) by (split; [constructor|left; reflexivity]).
    destruct (load_system_categories_inv fs _ _ _ _ _ Hi0 E) as [[Hn Hv] [Hne _]].
    destruct Hv as [->|[pre [vl [-> [-> Hpre]]]]]; [exfalso; apply (Hne Hs); reflexivity|].
    destruct (reads_user_dirs env); [|left; reflexivity].
    cbn [load_user_categories].
    apply load_user_categories_same, dict_update_twice, Hpre.
  - intros Hs Hu Hne. unfold load_categories_to_type. rewrite Hs, Hu; cbn [load_system_categories].
    destruct (user_conf_dirs env) as [|d rest]; [congruence|]. cbn [load_user_categories].
    destruct (load_content_categories_dir fs (path_join d (S "content-categories")))
      as [v0|e] eqn:E; [left; reflexivity|].
    right. rewrite (load_content_categories_dir_raise _ _ _ E). reflexivity.
Qed.

(** ** Guessing from the definitions *)

Lemma existsb_pystr_in p l : existsb (pystr_eqb p) l = true <-> In p l.
Proof.
  rewrite existsb_exists. split.
  - intros [x [Hx E]]. apply pystr_eqb_true in E. subst; exact Hx.
  - intros H. exists p. split; [exact H|apply pystr_eqb_refl].
Qed.

Section Guess.

Variable search : pystr -> pystr -> bool.
Variable V : Type.
Variable py_str : V -> pystr.
Variable as_sequence : V -> option (list V).

Lemma match_rules_some s r ct :
  match_rules search s r = Some ct ->
  exists regex rstr, In (regex, (rstr, ct)) r /\ search regex s = true.
Proof.
  induction r as [|[regex [rstr ct']] rest IH]; simpl; [discriminate|].
  destruct (search regex s) eqn:E.
  - intros H; injection H as <-. exists regex, rstr. auto.
  - intros H. destruct (IH H) as [a [b [Hin Hs]]]. exists a, b. auto.
Qed.

Lemma match_rules_none s r :
  match_rules search s r = None <->
  forall regex rstr ct, In (regex, (rstr, ct)) r -> search regex s = false.
Proof.
  induction r as [|[regex [rstr ct']] rest IH]; simpl.
  - split; [tauto|reflexivity].
  - destruct (search regex s) eqn:E; split.
    + discriminate.
    + intros H. rewrite (H regex rstr ct' (or_introl eq_refl)) in E. discriminate.
    + intros H a b c [Hh|Hin]; [injection Hh as <- <- <-; exact E|].
      apply (proj1 IH H _ _ _ Hin).
    + intros H. apply IH. intros a b c Hin. apply (H a b c (or_intror Hin)).
Qed.

Lemma match_values_some vals r ct :
  match_values search V py_str vals r = Some ct ->
  exists regex rstr v, In (regex, (rstr, ct)) r /\ In v vals /\ search regex (py_str v) = true.
Proof.
  induction vals as [|v rest IH]; simpl; [discriminate|].
  destruct (match_rules search (py_str v) r) eqn:E.
  - intros H; injection H as <-.
    destruct (match_rules_some _ _ _ E) as [a [b [Hin Hs]]]. exists a, b, v. auto.
  - intros H. destruct (IH H) as [a [b [v' [Hin [Hv Hs]]]]]. exists a, b, v'. auto.
Qed.

Lemma match_values_none vals r :
  match_values search V py_str vals r = None <->
  forall regex rstr ct v, In (regex, (rstr, ct)) r -> In v vals ->
    search regex (py_str v) = false.
Proof.
  induction vals as [|v rest IH]; simpl.
  - split; [tauto|reflexivity].
  - destruct (match_rules search (py_str v) r) eqn:E; split.
    + discriminate.
    + intros H. destruct (match_rules_some _ _ _ E) as [a [b [Hin Hs]]].
      rewrite (H a b p v Hin (or_introl eq_refl)) in Hs. discriminate.
    + intros H a b c v' Hin [<-|Hv].
      * apply (proj1 (match_rules_none _ _) E _ _ _ Hin).
      * apply (proj1 IH H _ _ _ _ Hin Hv).
    + intros H. apply IH. intros a b c v' Hin Hv. apply (H a b c v' Hin (or_intror Hv)).
Qed.

Lemma guess_from_some w d ct :
  guess_from search V py_str as_sequence w d = Some ct ->
  exists prop rs regex rstr v,
    In (prop, rs) d /\ In prop (get_property_names V w) /\ In (regex, (rstr, ct)) rs /\
    In v (values_of V as_sequence (get_property V w prop)) /\ search regex (py_str v) = true.
Proof.
  induction d as [|[prop rs] rest IH]; simpl; [discriminate|].
  destruct (existsb (pystr_eqb prop) (get_property_names V w)) eqn:Ex.
  - destruct (match_values search V py_str (values_of V as_sequence (get_property V w prop)) rs) eqn:E.
    + intros H; injection H as <-.
      destruct (match_values_some _ _ _ E) as [a [b [v [Hin [Hv Hs]]]]].
      exists prop, rs, a, b, v. apply existsb_pystr_in in Ex. auto 6.
    + intros H. destruct (IH H) as [p' [rs' [a [b [v [H1 [H2 [H3 [H4 H5]]]]]]]]].
      exists p', rs', a, b, v. auto 6.
  - intros H. destruct (IH H) as [p' [rs' [a [b [v [H1 [H2 [H3 [H4 H5]]]]]]]]].
    exists p', rs', a, b, v. auto 6.
Qed.

Lemma guess_from_none w d :
  guess_from search V py_str as_sequence w d = None <->
  forall prop rs regex rstr ct v,
    In (prop, rs) d -> In prop (get_property_names V w) -> In (regex, (rstr, ct)) rs ->
    In v (values_of V as_sequence (get_property V w prop)) -> search regex (py_str v) = false.
Proof.
  induction d as [|[prop rs] rest IH]; simpl.
  - split; [tauto|reflexivity].
  - destruct (existsb (pystr_eqb prop) (get_property_names V w)) eqn:Ex.
    + destruct (match_values search V py_str (values_of V as_sequence (get_property V w prop)) rs)
        eqn:E; split.
      * discriminate.
      * intros H. destruct (match_values_some _ _ _ E) as [a [b [v [Hin [Hv Hs]]]]].
        apply existsb_pystr_in in Ex.
        rewrite (H prop rs a b p v (or_introl eq_refl) Ex Hin Hv) in Hs. discriminate.
      * intros H p' rs' a b c v [Hh|Hin] Hp Hr Hv.
        -- injection Hh as <- <-. apply (proj1 (match_values_none _ _) E _ _ _ _ Hr Hv).
        -- apply (proj1 IH H _ _ _ _ _ _ Hin Hp Hr Hv).
      * intros H. apply IH. intros p' rs' a b c v Hin. apply (H p' rs' a b c v (or_intror Hin)).
    + split.
      * intros H p' rs' a b c v [Hh|Hin] Hp Hr Hv.
        -- injection Hh as <- <-. apply existsb_pystr_in in Hp. congruence.
        -- apply (proj1 IH H _ _ _ _ _ _ Hin Hp Hr Hv).
      * intros H. apply IH. intros p' rs' a b c v Hin. apply (H p' rs' a b c v (or_intror Hin)).
Qed.

Lemma guess_from_app w d1 d2 x :
  guess_from search V py_str as_sequence w d1 = Some x ->
  guess_from search V py_str as_sequence w (d1 ++ d2) = Some x.
Proof.
  induction d1 as [|[prop rs] rest IH]; simpl; [discriminate|].
  destruct (existsb (pystr_eqb prop) (get_property_names V w)); [|exact IH].
  destruct (match_values search V py_str (values_of V as_sequence (get_property V w prop)) rs);
    [auto|exact IH].
Qed.

End Guess.

(** X16: With the definitions loaded, guess_content_type_from_defs() returns a type only if a rule of a property the window has matches one of that property's values. It returns None exactly when no such rule matches any value. *)
Theorem guess_content_type_from_defs_match :
  forall regex_ok search V py_str as_sequence env fs d c w,
    let r := guess_content_type_from_defs regex_ok search V py_str as_sequence env fs
               (mkCGState (Some d) c) w in
    fst r = mkCGState (Some d) c /\
    (forall ct, snd r = POk (Some ct) ->
       exists prop rs regex rstr v,
         In (prop, rs) d /\ In prop (get_property_names V w) /\ In (regex, (rstr, ct)) rs /\
         In v (values_of V as_sequence (get_property V w prop)) /\
         search regex (py_str v) = true) /\
    (snd r = POk None <->
       forall prop rs regex rstr ct v,
         In (prop, rs) d -> In prop (get_property_names V w) -> In (regex, (rstr, ct)) rs ->
         In v (values_of V as_sequence (get_property V w prop)) ->
         search regex (py_str v) = false).
Proof.
  intros regex_ok search V py_str as_sequence env fs d c w r. subst r.
  unfold guess_content_type_from_defs; simpl.
  split; [reflexivity|split].
  - intros ct H. injection H as H. apply guess_from_some; exact H.
  - rewrite <- guess_from_none. split; [intros H; injection H as H; exact H|intros ->; reflexivity].
Qed.

Lemma from_command_snd V py_truthy py_kind env fs xdg_menu st st' w :
  st.(command_to_type) = st'.(command_to_type) ->
  snd (guess_content_type_from_command V py_truthy py_kind env fs xdg_menu st w) =
  snd (guess_content_type_from_command V py_truthy py_kind env fs xdg_menu st' w).
Proof.
  intros H. unfold guess_content_type_from_command. rewrite H.
  repeat (match goal with |- context [match ?x with _ => _ end] => destruct x end);
    reflexivity.
Qed.

(** X17: If the first matching definition has an empty content type, guess_content_type() falls back as if no definition matched. Later definitions that match with a non-empty type are never consulted. *)
Theorem empty_content_type_shadows :
  forall regex_ok search V py_str as_sequence py_truthy py_kind env fs xdg_menu d1 d2 c w,
    guess_from search V py_str as_sequence w d1 = Some [] ->
    snd (guess_content_type regex_ok search V py_str as_sequence py_truthy py_kind env fs
           xdg_menu (mkCGState (Some (d1 ++ d2)) c) w) =
    snd (guess_content_type regex_ok search V py_str as_sequence py_truthy py_kind env fs
           xdg_menu (mkCGState (Some []) c) w).
Proof.
  intros regex_ok search V py_str as_sequence py_truthy py_kind env fs xdg_menu d1 d2 c w H.
  unfold guess_content_type, guess_content_type_from_defs; simpl.
  rewrite (guess_from_app _ _ _ _ _ _ _ _ H); simpl.
  match goal with
  |- snd (match ?a with _ => _ end) = snd (match ?b with _ => _ end) =>
      assert (Hs : snd a = snd b) by (apply from_command_snd; reflexivity);
      destruct a as [s1 [r1|e1]]; destruct b as [s2 [r2|e2]]; simpl in Hs;
      try discriminate Hs; injection Hs as ->; reflexivity
  end.
Qed.

(** ** Commands *)

Lemma fold_left_inv {A B} (P : A -> Prop) (f : A -> B -> A) l a :
  (forall x m, In x l -> P m -> P (f m x)) -> P a -> P (fold_left f l a).
Proof.
  revert a. induction l as [|x l IH]; intros a Hf Ha; simpl; [exact Ha|].
  apply IH; [intros y m Hy; apply Hf; right; exact Hy|apply Hf; [left|]; auto].
Qed.

Lemma fuzzy_type_in lc ctt ct : fuzzy_type lc ctt = Some ct -> exists name, In (name, ct) ctt.
Proof.
  induction ctt as [|[name ct'] rest IH]; simpl; [discriminate|].
  destruct (containsb name lc).
  - intros H; injection H as <-. exists name; left; reflexivity.
  - intros H. destruct (IH H) as [n Hn]. exists n; right; exact Hn.
Qed.

Lemma category_type_in ctt c ct :
  category_type ctt c = Some ct -> exists name, In (name, ct) ctt.
Proof.
  unfold category_type.
  destruct (truthy_str (dict_get (lower c) ctt)) eqn:T.
  - intros H. exists (lower c). apply dict_get_in, H.
  - destruct (fuzzy_type (lower c) ctt) as [ct'|] eqn:F.
    + intros H; injection H as <-. apply (fuzzy_type_in _ _ _ F).
    + intros H. rewrite H in T. exists (lower c). apply dict_get_in, H.
Qed.

(** Every entry of [command_to_type] has a non-empty key satisfying [P]
    and a non-empty type taken from [ctt]. *)
Definition typed_commands (ctt : categories) (P : pystr -> Prop) (m : categories) : Prop :=
  forall cmd ct, In (cmd, ct) m ->
    ct <> [] /\ cmd <> [] /\ (exists category, In (category, ct) ctt) /\ P cmd.

Lemma type_entry_inv ctt P command cats : forall m,
  P (basename (first_field " "%char command)) ->
  typed_commands ctt P m -> typed_commands ctt P (type_entry ctt command cats m).
Proof.
  induction cats as [|c rest IH]; intros m HP Hm; simpl; [exact Hm|].
  destruct (truthy_str (category_type ctt c)) eqn:T; [|apply IH; assumption].
  destruct (is_emptyb (basename (first_field " "%char command))) eqn:Ek; simpl;
    [apply IH; assumption|].
  destruct (category_type ctt c) as [ct|] eqn:Ec; [|exact Hm].
  intros k x Hin. apply in_dict_set in Hin as [[-> ->]|Hin]; [|apply Hm, Hin].
  split; [intros ->; discriminate T|split; [intros E; rewrite E in Ek; discriminate Ek|]].
  split; [apply (category_type_in _ _ _ Ec)|exact HP].
Qed.

(** X18: Every entry of the map that load_command_to_type() builds has a non-empty command key and a non-empty type. The type is a value of the categories map. The key is the basename of the first word of the TryExec or Exec command of a menu entry. *)
Theorem load_command_to_type_sound :
  forall env fs xdg_menu g m,
    load_command_to_type env fs xdg_menu None = (g, POk m) ->
    g = Some m /\
    exists ctt, load_categories_to_type env fs = POk ctt /\
    forall cmd ct, In (cmd, ct) m ->
      ct <> [] /\ cmd <> [] /\ (exists category, In (category, ct) ctt) /\
      exists mn category entries name e command,
        xdg_menu = Some mn /\ In (category, entries) mn /\ In (name, e) entries /\
        entry_command e = Some command /\ cmd = basename (first_field " "%char command).
Proof.
  intros env fs xdg_menu g m H. unfold load_command_to_type in H.
  destruct (load_categories_to_type env fs) as [ctt|e]; [|discriminate H].
  destruct xdg_menu as [[|cat0 mn0]|]; destruct ctt as [|c0 ctt0];
    try (injection H as <- <-; split; [reflexivity|];
         eexists; split; [reflexivity|intros cmd ct []]).
  injection H as <- <-. split; [reflexivity|].
  eexists; split; [reflexivity|].
  set (mn := cat0 :: mn0). set (ctt := c0 :: ctt0).
  set (P := fun cmd => exists category entries name e command,
              In (category, entries) mn /\ In (name, e) entries /\
              entry_command e = Some command /\ cmd = basename (first_field " "%char command)).
  assert (Ht : typed_commands ctt P (type_menu ctt mn)).
  { unfold type_menu. apply fold_left_inv; [|intros cmd ct []].
    intros [category entries] m0 Hc Hm0. simpl.
    apply fold_left_inv; [|exact Hm0].
    intros [name e] m1 Hn Hm1. simpl. unfold type_menu_entry.
    destruct (entry_command e) as [command|] eqn:Ecmd; [|exact Hm1].
    destruct (Categories e) as [cats|]; [|exact Hm1].
    destruct (negb (is_emptyb command) && negb (match cats with [] => true | _ => false end));
      [|exact Hm1].
    apply type_entry_inv; [|exact Hm1].
    exists category, entries, name, e, command. auto. }
  intros cmd ct Hin. destruct (Ht cmd ct Hin) as [H1 [H2 [H3 [category [entries [name [e
    [command [H4 [H5 [H6 H7]]]]]]]]]]].
  split; [exact H1|split; [exact H2|split; [exact H3|]]].
  exists mn, category, entries, name, e, command. auto.
Qed.

(** X20: If loading the categories raises, load_command_to_type() raises but has already cached an empty map. Every later command lookup returns None, or raises TypeError for a command of another type. *)
Theorem categories_failure_cached :
  forall env fs xdg_menu e,
    load_categories_to_type env fs = PRaise e ->
    load_command_to_type env fs xdg_menu None = (Some [], PRaise e) /\
    forall V py_truthy py_kind env' fs' xdg_menu' defs w,
      snd (guess_content_type_from_command V py_truthy py_kind env' fs' xdg_menu'
             (mkCGState defs (Some [])) w) = POk None \/
      snd (guess_content_type_from_command V py_truthy py_kind env' fs' xdg_menu'
             (mkCGState defs (Some [])) w) = PRaise TypeError.
Proof.
  intros env fs xdg_menu e H. unfold load_command_to_type. rewrite H.
  split; [reflexivity|].
  intros V py_truthy py_kind env' fs' xdg_menu' defs w.
  unfold guess_content_type_from_command; simpl.
  repeat (match goal with |- context [match ?x with _ => _ end] => destruct x end);
    simpl; auto.
Qed.

(** ** Scenarios *)

(** Patterns without metacharacters: every one compiles and [search] is
    substring search. *)
Definition ex_regex_ok (r : pystr) : bool := true.
Definition ex_search (regex s : pystr) : bool := containsb regex s.

(** Property values: str or bytes. *)
Inductive pyval := VStr (s : pystr) | VBytes (b : pystr).

Definition ex_py_str (v : pyval) : pystr := match v with VStr s => s | VBytes b => b end.
Definition ex_as_sequence (v : pyval) : option (list pyval) := None.
Definition ex_py_truthy (v : pyval) : bool := negb (is_emptyb (ex_py_str v)).
Definition ex_py_kind (v : pyval) : pykind :=
  match v with VStr s => KStr s | VBytes b => KBytes b end.

Definition ex_window (command : pyval) : Window pyval :=
  mkWindow pyval [S "title"; S "command"]
    (fun p => if pystr_eqb p (S "title") then VStr (S "xterm") else command).

(** A file system whose only directory holds one file [50_x.conf]. *)
Definition fs_one (lines : list pystr) (fails : bool) (listing : option (list pystr)) : FS :=
  mkFS (fun _ => true) (fun _ => listing) (fun _ => true) (fun _ => (lines, fails)).

Definition fs_empty : FS :=
  mkFS (fun _ => false) (fun _ => None) (fun _ => false) (fun _ => ([], false)).

Definition env_linux (sys : list pystr) (defs_var : pystr) : Env :=
  mkEnv sys [] true false 1000 (S "default") defs_var.

Definition nl_line (s : pystr) : pystr := s ++ ["010"%char].

Definition menu_xterm : menu :=
  [(S "System",
    [(S "XTerm", mkEntry (Some []) (Some (S "xterm -ls")) (Some [S "System"; S "TerminalEmulator"]))])].

Ltac not_in := let H := fresh in
  intros H; simpl in H; repeat (destruct H as [H|H]; [discriminate H|]); exact H.

Lemma process_content_type_entry_stores_witness :
  def_lookup (S "title") (S "xterm")
    (snd (process_content_type_entry ex_regex_ok [] (S "title:xterm=terminal:  # shell")))
  = Some (S "xterm", S "terminal").
Proof.
  destruct (process_content_type_entry_stores ex_regex_ok [] (S "title") (S "xterm")
              (S "terminal:  # shell") ltac:(not_in) ltac:(not_in) ltac:(not_in)
              ltac:(not_in) ltac:(discriminate) ltac:(reflexivity)) as [_ [H _]].
  exact H.
Defined.

Lemma content_type_file_read_error_witness :
  load_content_type_dir ex_regex_ok
    (fs_one [nl_line (S "title:xterm=terminal"); nl_line (S "TerminalEmulator:terminal")] true
       (Some [S "50_x.conf"])) (S "/etc/xpra/content-type") []
  = POk (process_entries ex_regex_ok []
           [nl_line (S "title:xterm=terminal"); nl_line (S "TerminalEmulator:terminal")]) /\
  load_content_categories_dir
    (fs_one [nl_line (S "title:xterm=terminal"); nl_line (S "TerminalEmulator:terminal")] true
       (Some [S "50_x.conf"])) (S "/etc/xpra/content-type") = POk [].
Proof.
  apply (content_type_file_read_error ex_regex_ok _ (S "/etc/xpra/content-type") (S "50_x.conf")
           [nl_line (S "title:xterm=terminal"); nl_line (S "TerminalEmulator:terminal")] []);
    reflexivity.
Defined.

Lemma content_categories_last_line_witness :
  exists d,
    load_content_categories_file
      (fs_one [S "# categories"; nl_line (S " TerminalEmulator: terminal ")] false None) (S "x.conf") = POk d /\
    dict_get (S "terminalemulator") d = Some (S "terminal").
Proof.
  destruct (content_categories_last_line
              (fs_one [S "# categories"; nl_line (S " TerminalEmulator: terminal ")] false None) (S "x.conf")
              [S "# categories"] (S " TerminalEmulator") (S " terminal ")
              ltac:(not_in) ltac:(not_in) ltac:(not_in) ltac:(discriminate))
    as [d [H1 H2]].
  - reflexivity.
  - exists d. split; [exact H1|exact H2].
Defined.

Lemma content_type_defs_env_entry_witness :
  def_lookup (S "title") (S "xterm")
    (match snd (load_content_type_defs ex_regex_ok
                  (env_linux [] (S "title:xterm=terminal")) fs_empty None) with
     | POk d => d | PRaise _ => [] end)
  = Some (S "xterm", S "terminal").
Proof.
  apply (content_type_defs_env_entry ex_regex_ok (env_linux [] (S "title:xterm=terminal"))
           fs_empty (S "title") (S "xterm") (S "terminal")
           (fst (load_content_type_defs ex_regex_ok
                   (env_linux [] (S "title:xterm=terminal")) fs_empty None)));
    try reflexivity; try not_in; try discriminate.
Defined.

Lemma empty_content_type_shadows_witness :
  snd (guess_content_type ex_regex_ok ex_search pyval ex_py_str ex_as_sequence ex_py_truthy
         ex_py_kind (env_linux [] []) fs_empty None
         (mkCGState (Some ([(S "title", [(S "xterm", (S "xterm", []))])] ++
                           [(S "title", [(S "xterm", (S "xterm", S "terminal"))])]))
            (Some [(S "xterm", S "terminal")]))
         (ex_window (VBytes (S "/usr/bin/xterm"))))
  = snd (guess_content_type ex_regex_ok ex_search pyval ex_py_str ex_as_sequence ex_py_truthy
           ex_py_kind (env_linux [] []) fs_empty None
           (mkCGState (Some []) (Some [(S "xterm", S "terminal")]))
           (ex_window (VBytes (S "/usr/bin/xterm")))).
Proof.
  apply empty_content_type_shadows. vm_compute. reflexivity.
Defined.

Lemma load_command_to_type_sound_witness :
  load_command_to_type
    (env_linux [S "/etc/xpra"] [])
    (fs_one [nl_line (S "TerminalEmulator:terminal")] false (Some [S "10_apps.conf"]))
    (Some menu_xterm) None
  = (Some [(S "xterm", S "terminal")], POk [(S "xterm", S "terminal")]) /\
  exists mn category entries name e command,
    Some menu_xterm = Some mn /\ In (category, entries) mn /\ In (name, e) entries /\
    entry_command e = Some command /\ S "xterm" = basename (first_field " "%char command).
Proof.
  assert (H : load_command_to_type
                (env_linux [S "/etc/xpra"] [])
                (fs_one [nl_line (S "TerminalEmulator:terminal")] false (Some [S "10_apps.conf"]))
                (Some menu_xterm) None
              = (Some [(S "xterm", S "terminal")], POk [(S "xterm", S "terminal")]))
    by (vm_compute; reflexivity).
  split; [exact H|].
  destruct (load_command_to_type_sound _ _ _ _ _ H) as [_ [ctt [_ Hs]]].
  destruct (Hs (S "xterm") (S "terminal") (or_introl eq_refl)) as [_ [_ [_ Hm]]].
  exact Hm.
Defined.

Lemma categories_failure_cached_witness :
  load_command_to_type (env_linux [S "/etc/xpra"] []) (fs_one [] false None)
    (Some menu_xterm) None = (Some [], PRaise OSError).
Proof.
  apply (proj1 (categories_failure_cached (env_linux [S "/etc/xpra"] []) (fs_one [] false None)
                  (Some menu_xterm) OSError ltac:(vm_compute; reflexivity))).
Defined.

End ContentGuesserProofs.
